(** * thermofeel: solar position and mean radiant temperature

    A shallow embedding of the solar/radiative core of [ThermoFeel.py]
    (Julian date, solar declination, instantaneous and period-averaged
    cosine of the solar zenith angle, mean radiant temperature) and the
    properties its specification states about it.

    Number model.  Python floats are embedded as the real numbers [R] of
    the Standard Library: [/] is true division (Python 3), [np.sin],
    [np.cos], [math.acos], [np.arcsin] are the real functions, [np.pi]
    and [math.pi] are [PI].  Rounding is not modelled; the two float
    operations that leave the reals ([np.arcsin] outside [-1,1] and
    [np.power] of a negative base) return [None] for NaN.  Where a claim
    is decided by plain arithmetic or by rounding, module [F64] evaluates
    the same expression in IEEE binary64; where the code computes on
    int64 arrays, the wrap-around is written out. *)

From Stdlib Require Import Reals Lra Lia ZArith List Bool Floats.
From Equations Require Import Equations.
Import ListNotations.

Open Scope R_scope.

(** ** Python and numpy primitives *)

(** [to_radians = np.pi / 180]. *)
Definition to_radians : R := PI / 180.

(** [np.clip(x, lo, None)]: only the lower bound is applied. *)
Definition np_clip_min (x lo : R) : R := Rmax x lo.

(** Python's [max(a, b)] and [min(a, b)] on floats. *)
Definition py_max (a b : R) : R := Rmax a b.
Definition py_min (a b : R) : R := Rmin a b.

(** Comparisons of the source as booleans. *)
Definition Rltb (a b : R) : bool := if Rlt_dec a b then true else false.
Definition Rleb (a b : R) : bool := if Rle_dec a b then true else false.
Definition Reqb (a b : R) : bool := if Req_dec_T a b then true else false.

(** [np.arcsin]: NaN outside [-1, 1]. *)
Definition np_arcsin (x : R) : option R :=
  if Rleb (-1) x && Rleb x 1 then Some (asin x) else None.

(** [np.power(x, y)] for a positive, non-integer exponent [y] (the source
    only uses [y = 0.25]): NaN for a negative base, [0] at [0]. *)
Definition np_power (x y : R) : option R :=
  if Rltb 0 x then Some (Rpower x y)
  else if Reqb x 0 then Some 0
  else None.

(** ** Julian date ([__julian_date], lines 27-29)

    Every [/] of the source is Python 3 true division. *)
Definition __julian_date (d m y : R) : R :=
  d - 32075 + 1461 * (y + 4800 + (m - 14) / 12) / 4
  + 367 * (m - 2 - (m - 14) / 12 * 12) / 12
  - 3 * ((y + 4900 + (m - 14) / 12) / 100) / 4.

(** The same expression with every division read as integer division,
    once rounding towards minus infinity (Python's [//], the reading of
    the specification) and once towards zero (Fortran's integer [/], the
    reading of the formula's origin).  These two follow the
    specification's words, not the source. *)
Definition julian_day_floor_spec (d m y : Z) : Z :=
  (d - 32075 + 1461 * (y + 4800 + (m - 14) / 12) / 4
   + 367 * (m - 2 - (m - 14) / 12 * 12) / 12
   - 3 * ((y + 4900 + (m - 14) / 12) / 100) / 4)%Z.

Definition julian_day_trunc_spec (d m y : Z) : Z :=
  (d - 32075 + 1461 * (y + 4800 + (m - 14) ÷ 12) ÷ 4
   + 367 * (m - 2 - (m - 14) ÷ 12 * 12) ÷ 12
   - 3 * ((y + 4900 + (m - 14) ÷ 12) ÷ 100) ÷ 4)%Z.

(** Calendar order on (year, month, day). *)
Definition date_before (y1 m1 d1 y2 m2 d2 : Z) : Prop :=
  (y1 < y2 \/ (y1 = y2 /\ (m1 < m2 \/ (m1 = m2 /\ d1 < d2))))%Z.

(** A real number is integer-valued. *)
Definition integer_valued (x : R) : Prop := exists z : Z, x = IZR z.

(** ** Solar declination ([__declination_angle], lines 33-44) *)

(** Line 34: the fractional year [g], in degrees. *)
Definition fractional_year (jd h : R) : R :=
  (360 / 365.25) * (jd + (h / 24)).

Lemma up_minus_1 (x : R) : up (x - 1) = (up x - 1)%Z.
Proof.
  symmetry. apply tech_up; rewrite minus_IZR; destruct (archimed x); lra.
Qed.

Lemma up_minus_2 (x : R) : up (x - 2) = (up x - 2)%Z.
Proof.
  symmetry. apply tech_up; rewrite minus_IZR; destruct (archimed x); lra.
Qed.

Lemma up_pos (x : R) : 0 < x -> (0 < up x)%Z.
Proof.
  intros Hx. destruct (archimed x) as [H _].
  apply lt_IZR. lra.
Qed.

(** Lines 35-36: [while (g > 360): g = g - 360].  The loop terminates on
    the reals because the number of whole turns left in [g] decreases. *)
Equations? reduce_g (g : R) : R by wf (Z.to_nat (up (g / 360))) lt :=
  reduce_g g with Rgt_dec g 360 := {
    | left _ => reduce_g (g - 360)
    | right _ => g }.
Proof.
  replace ((g - 360) / 360) with (g / 360 - 1) by lra.
  rewrite up_minus_1.
  assert (0 < up (g / 360))%Z by (apply up_pos; lra).
  lia.
Qed.

(** The same loop with the number of loop tests made explicit: [None]
    when [fuel] tests have not seen the loop exit. *)
Fixpoint reduce_g_fuel (fuel : nat) (g : R) : option R :=
  match fuel with
  | O => None
  | S fuel' =>
      if Rgt_dec g 360 then reduce_g_fuel fuel' (g - 360) else Some g
  end.

(** Lines 39-40: declination in degrees, as a function of [grad]. *)
Definition declination_series (grad : R) : R :=
  0.396372 - 22.91327 * cos grad + 4.02543 * sin grad
  - 0.387205 * cos (2 * grad) + 0.051967 * sin (2 * grad)
  - 0.154527 * cos (3 * grad) + 0.084798 * sin (3 * grad).

(** Lines 42-43: time correction in hour-degrees. *)
Definition time_correction_series (grad : R) : R :=
  0.004297 + 0.107029 * cos grad - 1.837877 * sin grad
  - 0.837378 * cos (2 * grad) - 2.340475 * sin (2 * grad).

Definition __declination_angle (jd h : R) : R * R :=
  let g := fractional_year jd h in
  let g := reduce_g g in
  let grad := g * to_radians in
  let d := declination_series grad in
  let tc := time_correction_series grad in
  (d, tc).

(** ** Instantaneous zenith angle
    ([calculate_cos_solar_zenith_angle], lines 142-177) *)

(** Lines 161-163: days since the start of the year. *)
Definition day_of_year (y m d : R) : R :=
  let jd_ := __julian_date d m y in
  let jd11_ := __julian_date 1 1 y in
  jd_ - jd11_ + 1.

Definition calculate_cos_solar_zenith_angle (lat lon y m d h : R) : R :=
  let jd := day_of_year y m d in
  let '(d, tc) := __declination_angle jd h in
  let drad := d * to_radians in
  let latrad := lat * to_radians in
  let sindec_sinlat := sin drad * sin latrad in
  let cosdec_coslat := cos drad * cos latrad in
  let sharad := ((h - 12) * 15 + lon + tc) * to_radians in
  let csza := sindec_sinlat + cosdec_coslat * cos sharad in
  np_clip_min csza 0.

(** ** Period-averaged zenith angle
    ([calculate_cos_solar_zenith_angle_integrated], lines 180-287) *)

(** The inner recursive function [horizon] (lines 252-264).  The recursive
    call is guarded by [rrange < maxx] and raises [rrange] by [2.0], so
    the distance from [rrange] up to [maxx] decreases. *)
Equations? horizon (val rrange lonrad zsolartimestart zsolartimeend maxx : R)
  : R * R by wf (Z.to_nat (up (maxx - rrange))) lt :=
  horizon val rrange lonrad zsolartimestart zsolartimeend maxx
    with Rlt_dec val (rrange * PI) := {
    | left _ =>
        (zsolartimestart + lonrad - ((rrange - 1.0) * PI),
         zsolartimeend + lonrad - ((rrange - 1.0) * PI))
    | right _ with Rlt_dec rrange maxx := {
      | left _ =>
          horizon val (rrange + 2.0) lonrad zsolartimestart zsolartimeend maxx
      | right _ =>
          (zsolartimestart + lonrad - (maxx + 1.0) * PI,
           zsolartimeend + lonrad - (maxx + 1.0) * PI) } }.
Proof.
  replace (maxx - (rrange + 2.0)) with (maxx - rrange - 2) by lra.
  rewrite up_minus_2.
  assert (0 < up (maxx - rrange))%Z by (apply up_pos; lra).
  lia.
Qed.

(** The same function with the call depth made explicit: [fuel] is the
    number of invocations of [horizon] that may still be entered, and
    [None] means that the allowance was exhausted. *)
Fixpoint horizon_fuel (fuel : nat)
  (val rrange lonrad zsolartimestart zsolartimeend maxx : R) : option (R * R) :=
  match fuel with
  | O => None
  | S fuel' =>
      if Rlt_dec val (rrange * PI) then
        Some (zsolartimestart + lonrad - ((rrange - 1.0) * PI),
              zsolartimeend + lonrad - ((rrange - 1.0) * PI))
      else if Rlt_dec rrange maxx then
        horizon_fuel fuel' val (rrange + 2.0) lonrad
                     zsolartimestart zsolartimeend maxx
      else
        Some (zsolartimestart + lonrad - (maxx + 1.0) * PI,
              zsolartimeend + lonrad - (maxx + 1.0) * PI)
  end.

(** The measure the recursion decreases on. *)
Definition horizon_measure (maxx rrange : R) : nat :=
  Z.to_nat (up (maxx - rrange)).

(** The bounded loop of the specification (section 4.5 step 6 and the
    design note of section 9), written from the specification's words:
    [r] runs over 2, 4, ..., 100; the first [r] with [val < r * pi]
    resolves the horizon with the shift [lon_rad - (r - 1) * pi]; when no
    [r] resolves it, the saturated shift [lon_rad - 101 * pi] applies. *)
Fixpoint range_step2 (n : nat) (r : Z) : list Z :=
  match n with
  | O => []
  | S n' => r :: range_step2 n' (r + 2)
  end.

Fixpoint horizon_loop_over (rs : list Z) (val lon_rad t_start t_end : R)
  : R * R :=
  match rs with
  | [] => (t_start + (lon_rad - 101 * PI), t_end + (lon_rad - 101 * PI))
  | r :: rs' =>
      if Rlt_dec val (IZR r * PI) then
        (t_start + (lon_rad - (IZR r - 1) * PI),
         t_end + (lon_rad - (IZR r - 1) * PI))
      else horizon_loop_over rs' val lon_rad t_start t_end
  end.

Definition horizon_loop_spec (val lon_rad t_start t_end : R) : R * R :=
  horizon_loop_over (range_step2 50 2) val lon_rad t_start t_end.

(** Line 245: tangent of the declination with the floored cosine. *)
Definition ztandec_of (d : R) : R :=
  sin (d * PI / 180) / py_max (cos (d * PI / 180)) 1.0e-12.

(** Line 246: cosine of the hour angle at sunset. *)
Definition zcoshouranglesunset_of (d latrad : R) : R :=
  - ztandec_of d * sin latrad / np_clip_min (cos latrad) 1.0e-12.

(** The inner function [solar_zenith_angle_average] (lines 250-285); the
    variable [maxx] it captures from the enclosing call is a parameter. *)
Definition solar_zenith_angle_average (maxx : R)
  (lonrad zcoshouranglesunset zsindecsinlat zcosdeccoslat
   zsolartimestart zsolartimeend sha : R) : R :=
  let PMU0 := 0 in
  if Rle_dec zcoshouranglesunset 1 then
    let '(zhouranglestart, zhourangleend) :=
      horizon (sha * PI / 180 + lonrad) 2 lonrad
              zsolartimestart zsolartimeend maxx in
    let '(zhouranglestart, zhourangleend, PMU0) :=
      if Rge_dec zcoshouranglesunset (-1) then
        let zhouranglesunset := acos zcoshouranglesunset in
        let PMU0 :=
          if Rleb zhourangleend (- zhouranglesunset)
             || Rleb zhouranglesunset zhouranglestart
          then 0 else PMU0 in
        (py_max (- zhouranglesunset) (py_min zhouranglestart zhouranglesunset),
         py_max (- zhouranglesunset) (py_min zhourangleend zhouranglesunset),
         PMU0)
      else (zhouranglestart, zhourangleend, PMU0) in
    if Rgt_dec (zhourangleend - zhouranglestart) 1.0e-8 then
      py_max 0.0
        (zsindecsinlat
         + (zcosdeccoslat * (sin zhourangleend - sin zhouranglestart))
           / (zhourangleend - zhouranglestart))
    else 0.0
  else PMU0.

(** The function at one grid point: [np.vectorize] (line 287) applies
    [solar_zenith_angle_average] to each point on its own. *)
Definition calculate_cos_solar_zenith_angle_integrated
  (lat lon y m d h base step : R) : R :=
  let maxx := 0 in
  let base_offset := 0 in
  let h_offset := 0 in
  let step_offset := 0 in
  let base_offset := if Reqb base 0 then 0 else base_offset in
  let base_offset := if Reqb base 6 then 594 else base_offset in
  let base_offset := if Reqb base 18 then 1806 else base_offset in
  let base_offset := if Reqb base 12 then 1212 else base_offset in
  let '(h_offset, maxx) :=
    if Reqb step 1 then (0.5, 32.0) else (h_offset, maxx) in
  let '(h_offset, maxx) :=
    if Reqb step 3 then (1.5, 14.0) else (h_offset, maxx) in
  let '(h_offset, maxx) :=
    if Reqb step 6 then (3, 100.0) else (h_offset, maxx) in
  let hh := h - base_offset - h_offset in
  (* lines 222-225: the offsets are overridden *)
  let hh := h in
  let maxx := 100.0 in
  let jd := day_of_year y m d in
  let '(d, tc) := __declination_angle jd hh in
  let sha := (hh - 12) * 15 + (lon + 180) / 2 + tc in
  let latrad := lat * to_radians in
  let lonrad := (lon + 180) / 2 * to_radians in
  let accumulationperiod := step in
  let zhalftimestep := (2 * PI) / 24 * accumulationperiod / 2 in
  let zsolartimestart := sha * PI / 180 - zhalftimestep in
  let zsolartimeend := sha * PI / 180 + zhalftimestep in
  let zcoshouranglesunset := zcoshouranglesunset_of d latrad in
  let zsindecsinlat := sin (d * PI / 180) * sin latrad in
  let zcosdeccoslat := cos (d * PI / 180) * cos latrad in
  solar_zenith_angle_average maxx lonrad zcoshouranglesunset zsindecsinlat
    zcosdeccoslat zsolartimestart zsolartimeend sha.

(** The sunset cosine the integrated function computes for a grid point
    at latitude [lat] on the given date and hour. *)
Definition sunset_cosine (lat y m d h : R) : R :=
  zcoshouranglesunset_of
    (fst (__declination_angle (day_of_year y m d) h)) (lat * to_radians).

(** ** Mean radiant temperature
    ([calculate_mean_radiant_temperature], lines 290-320)

    The arguments are numpy arrays: objects the caller also holds.  The
    object store is a list of arrays, a reference is a position in it, and
    two arguments alias when they are the same reference.  Arrays are
    one-dimensional here (an n-dimensional field is its flattening) and
    all six must have one shape; anything else is an error ([None]). *)
Definition ndarray := list R.
Definition ref := nat.
Definition heap := list ndarray.

Definition load (hp : heap) (r : ref) : option ndarray := nth_error hp r.

Fixpoint store (hp : heap) (r : ref) (a : ndarray) : heap :=
  match hp, r with
  | [], _ => []
  | _ :: tl, O => a :: tl
  | x :: tl, S r' => x :: store tl r' a
  end.

(** [a[i]], and the array [[f(0), ..., f(n-1)]] of an elementwise
    expression. *)
Definition item (a : ndarray) (i : nat) : R := nth i a 0.
Definition tabulate {A : Type} (n : nat) (f : nat -> A) : list A :=
  map f (seq 0 n).

Definition same_shape (n : nat) (arrays : list ndarray) : bool :=
  forallb (fun a => Nat.eqb (length a) n) arrays.

Notation "x <- e ;; k" :=
  (match e with Some x => k | None => None end)
  (at level 61, e at next level, right associativity).

(** [__kelvin_to_celcius] (lines 71-73) on one element. *)
Definition __kelvin_to_celcius (t2m : R) : R := t2m - 273.15.

(** Lines 308-309 on one element: the projected area factor. *)
Definition fp_of (cossza : R) : option R :=
  asin_c <- np_arcsin cossza ;;
  let gamma := asin_c * 180 / PI in
  Some (0.308 * cos (PI / 180) * gamma * 0.998 - gamma * gamma / 50000).

(** Lines 312-313 on one element: [fdir / cossza] under the filter
    [cossza > 0.01], [fdir] elsewhere. *)
Definition filtered_fdir (fdir cossza : R) : R :=
  if Rgt_dec cossza 0.01 then fdir / cossza else fdir.

(** Line 316 on one element. *)
Definition mrtcal_of (strd lur dsw rsw fp fdir : R) : option R :=
  np_power
    ((1 / 0.0000000567)
     * (0.5 * strd + 0.5 * lur
        + (0.7 / 0.97) * (0.5 * dsw + 0.5 * rsw + fp * fdir)))
    0.25.

(** The call returns the result array (an element is [None] when it is
    NaN) and the object store it leaves behind. *)
Definition calculate_mean_radiant_temperature
  (hp : heap) (ssrd ssr fdir strd strr cossza : ref)
  : option (list (option R) * heap) :=
  v_ssrd <- load hp ssrd ;;
  v_ssr <- load hp ssr ;;
  v_fdir <- load hp fdir ;;
  v_strd <- load hp strd ;;
  v_strr <- load hp strr ;;
  v_cossza <- load hp cossza ;;
  let n := length v_ssrd in
  if same_shape n [v_ssr; v_fdir; v_strd; v_strr; v_cossza] then
    (* lines 302-304: fresh arrays *)
    let dsw := tabulate n (fun i => item v_ssrd i - item v_fdir i) in
    let rsw := tabulate n (fun i => item v_ssrd i - item v_ssr i) in
    let lur := tabulate n (fun i => item v_strd i - item v_strr i) in
    (* lines 308-309 *)
    let fp := tabulate n (fun i => fp_of (item v_cossza i)) in
    (* lines 312-313: the object behind [fdir] is overwritten in place *)
    let hp' :=
      store hp fdir
        (tabulate n (fun i => filtered_fdir (item v_fdir i) (item v_cossza i)))
    in
    (* line 316 reads [strd] and [fdir] after the write *)
    v_strd' <- load hp' strd ;;
    v_fdir' <- load hp' fdir ;;
    let mrtcal :=
      tabulate n (fun i =>
        fp_i <- nth i fp None ;;
        mrtcal_of (item v_strd' i) (item lur i) (item dsw i) (item rsw i)
                  fp_i (item v_fdir' i)) in
    let mrt := map (option_map __kelvin_to_celcius) mrtcal in
    Some (mrt, hp')
  else None.

(** The value the call returns, per element, when [fdir = 0],
    [ssr = ssrd] and [cossza = 0]: written from the amended claim C3. *)
Definition mrt_diffuse_only (strd strr ssrd : R) : option R :=
  option_map __kelvin_to_celcius
    (np_power
       ((1 / 0.0000000567)
        * (0.5 * strd + 0.5 * (strd - strr) + (0.7 / 0.97) * (0.5 * ssrd)))
       0.25).

(** ** The arithmetic of the calendar and of [g] in IEEE binary64

    Python evaluates [__julian_date] and line 34 on floats; the
    primitive floats of Rocq are the same binary64 numbers, so these two
    definitions compute bit for bit what the interpreter computes on
    integer arguments. *)
Module F64.

Definition julian_date_f64 (d m y : float) : float :=
  (d - 32075 + 1461 * (y + 4800 + (m - 14) / 12) / 4
   + 367 * (m - 2 - (m - 14) / 12 * 12) / 12
   - 3 * ((y + 4900 + (m - 14) / 12) / 100) / 4)%float.

Definition fractional_year_f64 (jd h : float) : float :=
  ((360 / 365.25) * (jd + (h / 24)))%float.

(** One test of the loop condition [g > 360]. *)
Definition loop_enters_f64 (g : float) : bool := PrimFloat.ltb 360 g.

(** Lines 35-36 in binary64 with the number of loop tests made explicit:
    [None] when [fuel] tests have not seen the loop exit. *)
Fixpoint reduce_g_f64 (fuel : nat) (g : float) : option float :=
  match fuel with
  | O => None
  | S fuel' =>
      if loop_enters_f64 g then reduce_g_f64 fuel' (g - 360)%float
      else Some g
  end.

(** Lines 161-163 in binary64. *)
Definition day_of_year_f64 (y m d : float) : float :=
  (julian_date_f64 d m y - julian_date_f64 1 1 y + 1)%float.

(** [to_radians = np.pi / 180], with [np.pi] the double nearest to pi. *)
Definition to_radians_f64 : float := (0x1.921fb54442d18p+1 / 180)%float.

(** [np.clip(x, lo, None)] in binary64: the maximum of [x] and [lo],
    which keeps a NaN. *)
Definition np_clip_min_f64 (x lo : float) : float :=
  if PrimFloat.is_nan x then x
  else if PrimFloat.ltb lo x then x
  else lo.

(** Lines 171-177 in binary64, from the five values that [np.sin] and
    [np.cos] returned at [drad], [latrad] and [sharad]. *)
Definition csza_f64
  (sin_drad sin_latrad cos_drad cos_latrad cos_sharad : float) : float :=
  let sindec_sinlat := (sin_drad * sin_latrad)%float in
  let cosdec_coslat := (cos_drad * cos_latrad)%float in
  let csza := (sindec_sinlat + cosdec_coslat * cos_sharad)%float in
  np_clip_min_f64 csza 0.

End F64.

(** ** Unit conversions and wind speed (lines 47-85)

    The public functions pass their arguments through [__wrap], which
    turns a Python number into an array and leaves arrays alone; the
    functions below are given at one element. *)

(** [__calculate_wind_speed] (lines 48-50). *)
Definition __calculate_wind_speed (u v : R) : R :=
  let ws := R_sqrt.sqrt (u ^ 2 + v ^ 2) in
  ws.

(** [__farenheit_to_kelvin] (lines 65-67). *)
Definition __farenheit_to_kelvin (t2m : R) : R := (t2m + 459.67) * 5 / 9.

(** [__celcius_to_kelvin] (lines 77-79). *)
Definition __celcius_to_kelvin (t2m : R) : R := t2m + 273.15.

(** [__pa_to_hpa] (lines 83-85). *)
Definition __pa_to_hpa (rh : R) : R := rh / 10.

(** ** Humidity (lines 88-119) *)

(** [calculate_relative_humidity_percent] (lines 88-101).  [10.0 ** x]
    has a positive base, so it is the real power.  The quotients are
    meaningful where [237.7 + t2m] and [237.7 + td] are not zero. *)
Definition calculate_relative_humidity_percent (t2m td : R) : R :=
  let es := 6.11 * Rpower 10.0 (7.5 * t2m / (237.7 + t2m)) in
  let e := 6.11 * Rpower 10.0 (7.5 * td / (237.7 + td)) in
  let rh := (e / es) * 100 in
  rh.

(** The coefficient list [g] of lines 112-113. *)
Definition g_coefficients : list R :=
  [-2.8365744e3; -6.028076559e3; 1.954263612e1; -2.737830188e-2;
   1.6261698e-5; 7.0229056e-10; -1.8680009e-13; 2.7150305].

(** Lines 115-117 for a positive [tk]: [g[7] * log(tk)] and the loop
    [for i in range(7): ess = ess + g[i] * pow(tk, i - 2)]. *)
Definition ess_of (tk : R) : R :=
  let g := g_coefficients in
  let ess := nth 7 g 0 * ln tk in
  fold_left
    (fun ess i => ess + nth i g 0 * powerRZ tk (Z.of_nat i - 2))
    (seq 0 7) ess.

(** [calculate_relative_humidity] (lines 104-119).  [__kelvin_to_celcius]
    is applied twice before 273.15 is added back.  [np.log] of a
    negative number is NaN, which reaches the result ([None]); at
    [tk = 0] the logarithm is minus infinity, every later term keeps the
    sum there, and [np.exp] returns 0. *)
Definition calculate_relative_humidity (t2m : R) : option R :=
  let t2m := __kelvin_to_celcius t2m in
  let t2m := __kelvin_to_celcius t2m in
  let tk := t2m + 273.15 in
  if Rltb 0 tk then
    let ess := ess_of tk in
    let ess := exp ess * 0.01 in
    Some ess
  else if Reqb tk 0 then Some 0
  else None.

(** ** Simple wet bulb globe temperature ([calculate_wbgts], lines 597-614) *)
Definition calculate_wbgts (t2m : R) : option R :=
  rh <- calculate_relative_humidity t2m ;;
  let rh := __pa_to_hpa rh in
  let t2m := __kelvin_to_celcius t2m in
  let wbgts := 0.567 * t2m + 0.393 * rh + 3.38 in
  Some wbgts.

(** ** Mean radiant temperature from the globe temperature
    ([calculate_mrt_from_wbgt], lines 647-665)

    [__wrap] (lines 54-61) turns a Python int into an int64 array and a
    Python float into a float64 array, and the arithmetic that follows
    is the arrays': between two ints it is int64 arithmetic, which wraps
    around; with a float on either side it is float arithmetic.  Ints
    are taken inside the int64 range. *)
Inductive pynum : Type :=
| PyInt (z : Z)
| PyFloat (x : R).

(** Two's complement wrap-around to 64 bits. *)
Definition int64_wrap (z : Z) : Z :=
  ((z + 2 ^ 63) mod 2 ^ 64 - 2 ^ 63)%Z.

(** The number as a float operand. *)
Definition num_value (v : pynum) : R :=
  match v with
  | PyInt z => IZR z
  | PyFloat x => x
  end.

(** [v ** 4]. *)
Definition num_pow4 (v : pynum) : R :=
  match v with
  | PyInt z => IZR (int64_wrap (z ^ 4))
  | PyFloat x => x ^ 4
  end.

(** [a - b]. *)
Definition num_sub (a b : pynum) : R :=
  match a, b with
  | PyInt x, PyInt y => IZR (int64_wrap (x - y))
  | _, _ => num_value a - num_value b
  end.

(** [va ** 0.6] and [pow(mrtcalculation, 0.25)] are float powers, NaN on
    a negative base; [0.15 ** 0.4] has a positive base. *)
Definition calculate_mrt_from_wbgt (t2m wbgt va : pynum) : option R :=
  va06 <- np_power (num_value va) 0.6 ;;
  let f := (1.1e8 * va06) / (0.98 * Rpower 0.15 0.4) in
  let wbgt4 := num_pow4 wbgt in
  let dit := num_sub wbgt t2m in
  let mrtcalculation := wbgt4 + f * dit in
  let mrtcalc2 := np_power mrtcalculation 0.25 in
  mrtcalc2.

(** The globe temperatures whose fourth power the code computes without
    wrap-around: positive floats, and positive ints up to 55108. *)
Definition pow4_in_range (wbgt : pynum) : Prop :=
  match wbgt with
  | PyInt z => (0 < z <= 55108)%Z
  | PyFloat x => 0 < x
  end.

(** ** Humidex ([calculate_humidex], lines 667-680)

    The quotients are meaningful where [t2m] and [td] are not zero. *)
Definition calculate_humidex (t2m td : R) : R :=
  let e := 6.11 * exp (5417.7530 * ((1 / t2m) - (1 / td))) in
  let h := 0.5555 * (e - 10.0) in
  let humidex := (t2m + h) - 273.15 in
  humidex.

(** ** Wind chill ([calculate_wind_chill], lines 720-735) *)

(** [np.log10] on a positive argument. *)
Definition np_log10 (x : R) : R := ln x / ln 10.

Definition calculate_wind_chill (t2m va : R) : option R :=
  let t2m := __kelvin_to_celcius t2m in
  let va := va * 4.87 / np_log10 (67.8 * 10 - 5.42) in
  let va := va * 2.23694 in
  va016 <- np_power va 0.16 ;;
  let windchill :=
    13.12 + 0.6215 * t2m - 11.37 * va016 + 0.3965 + t2m + va016 in
  Some windchill.

(** ** The 12-hour Simpson sum of [calc_cossza]
    ([nint-cossza.py], lines 34-45), at one grid point: the times
    [t], the weights [w] and the accumulation loop. *)
Definition simpson_times (hour : R) : list R := [hour - 6; hour; hour + 6].

Definition simpson_weights (hour : R) : list R :=
  map (fun c => (((hour + 6) - (hour - 6)) / 6) * c) [1; 4; 1].

Definition calc_cossza_integral (lat lon y m d hour : R) : R :=
  let t := simpson_times hour in
  let w := simpson_weights hour in
  fold_left
    (fun integral n =>
       let cossza :=
         calculate_cos_solar_zenith_angle lat lon y m d (nth n t 0) in
       integral + nth n w 0 * cossza)
    (seq 0 (length w)) 0.

(** * Properties *)

(** ** Julian date *)

Lemma julian_date_2000 : __julian_date 1 1 2000 = 2451545.570625.
Proof. unfold __julian_date. lra. Qed.

(** In binary64 the value is [0x1.2b42cc90a3d71p+21], which Python
    prints as [2451545.5706250002]. *)
Lemma julian_date_f64_2000 :
  F64.julian_date_f64 1 1 2000 = 0x1.2b42cc90a3d71p+21%float.
Proof. vm_compute. reflexivity. Qed.

Lemma julian_day_floor_2000 : julian_day_floor_spec 1 1 2000 = 2451547%Z.
Proof. vm_compute. reflexivity. Qed.

Lemma julian_day_trunc_2000 : julian_day_trunc_spec 1 1 2000 = 2451545%Z.
Proof. vm_compute. reflexivity. Qed.

Lemma between_integers (x : R) (z : Z) :
  IZR z < x < IZR z + 1 -> ~ integer_valued x.
Proof.
  intros [Hlo Hhi] [k Hk]. subst x.
  apply lt_IZR in Hlo.
  rewrite <- plus_IZR in Hhi. apply lt_IZR in Hhi.
  lia.
Qed.

(** C1.  The claim asks for an integer-valued Julian day computed with
    integer division, equal to 2451545 on 1 January 2000.  The source
    divides with [/], which is true division: on (1, 1, 2000) it returns
    2451545.570625, which is neither 2451545 nor an integer.  (Read with
    floor division the same formula gives 2451547; it gives 2451545 only
    with division truncating towards zero.) *)
Theorem julian_date_2000_not_integer :
  __julian_date 1 1 2000 = 2451545.570625
  /\ __julian_date 1 1 2000 <> 2451545
  /\ ~ integer_valued (__julian_date 1 1 2000).
Proof.
  rewrite julian_date_2000. repeat split.
  - lra.
  - apply (between_integers _ 2451545). lra.
Qed.

(** ** The wrap of the fractional year *)

Lemma reduce_g_small (g : R) : g <= 360 -> reduce_g g = g.
Proof.
  intros Hg. rewrite reduce_g_equation_1.
  destruct (Rgt_dec g 360); simpl; [lra | reflexivity].
Qed.

Lemma reduce_g_big (g : R) : g > 360 -> reduce_g g = reduce_g (g - 360).
Proof.
  intros Hg. rewrite reduce_g_equation_1.
  destruct (Rgt_dec g 360); simpl; [reflexivity | lra].
Qed.

Lemma reduce_g_le (g : R) : reduce_g g <= 360.
Proof. funelim (reduce_g g); lra. Qed.

Lemma reduce_g_pos (g : R) : 0 < g -> 0 < reduce_g g.
Proof.
  funelim (reduce_g g); intros Hg.
  - match goal with IH : _ -> 0 < reduce_g _ |- _ => apply IH end. lra.
  - exact Hg.
Qed.

(** The loop only removes whole turns. *)
Lemma reduce_g_turns (g : R) : exists n : nat, reduce_g g = g - 360 * INR n.
Proof.
  funelim (reduce_g g).
  - match goal with IH : exists _, _ |- _ => destruct IH as [n Hn] end.
    exists (S n). rewrite Hn, S_INR. lra.
  - exists 0%nat. simpl. lra.
Qed.

Lemma fractional_year_pos (jd h : R) :
  1 <= jd -> 0 <= h -> 0 < fractional_year jd h.
Proof.
  intros Hjd Hh. unfold fractional_year.
  apply Rmult_lt_0_compat; lra.
Qed.

Lemma fractional_year_365_6 : fractional_year 365 6 = 360.
Proof. unfold fractional_year. lra. Qed.

(** In binary64 too the product is exactly 360.0 on day 365 at 6 h, and
    the loop condition [g > 360] is false there. *)
Lemma fractional_year_f64_365_6 :
  F64.fractional_year_f64 365 6 = 360%float
  /\ F64.loop_enters_f64 (F64.fractional_year_f64 365 6) = false.
Proof. split; vm_compute; reflexivity. Qed.

(** C8, as stated, fails: on day 365 at 6 h the angle [g] is exactly 360,
    the loop test [g > 360] is false, and 360 stays, outside [0, 360). *)
Lemma declination_wrap_keeps_360 :
  1 <= 365 /\ 0 <= 6
  /\ reduce_g (fractional_year 365 6) = 360
  /\ ~ (0 <= reduce_g (fractional_year 365 6) < 360).
Proof.
  assert (H : reduce_g (fractional_year 365 6) = 360).
  { rewrite fractional_year_365_6. apply reduce_g_small. lra. }
  rewrite H. repeat split; lra.
Qed.

(** C8, amended.  For every day of year [>= 1] and hour [>= 0] the angle
    [g] is brought into the half-open interval (0, 360] by subtracting 360
    a whole number of times, and it is this value that is converted to
    radians and fed to both Fourier series. *)
Theorem declination_wraps_into_0_360 (jd h : R) :
  1 <= jd -> 0 <= h ->
  let g := fractional_year jd h in
  0 < reduce_g g <= 360
  /\ (exists n : nat, reduce_g g = g - 360 * INR n)
  /\ __declination_angle jd h =
       (declination_series (reduce_g g * to_radians),
        time_correction_series (reduce_g g * to_radians)).
Proof.
  intros Hjd Hh g. repeat split.
  - apply reduce_g_pos, fractional_year_pos; assumption.
  - apply reduce_g_le.
  - apply reduce_g_turns.
Qed.

Lemma declination_wraps_into_0_360_witness :
  1 <= 200 /\ 0 <= 12
  /\ (let g := fractional_year 200 12 in
      0 < reduce_g g <= 360
      /\ (exists n : nat, reduce_g g = g - 360 * INR n)
      /\ __declination_angle 200 12 =
           (declination_series (reduce_g g * to_radians),
            time_correction_series (reduce_g g * to_radians))).
Proof.
  assert (H1 : 1 <= 200) by lra.
  assert (H2 : 0 <= 12) by lra.
  split; [exact H1 | split; [exact H2 |]].
  exact (declination_wraps_into_0_360 200 12 H1 H2).
Defined.

(** ** Periodicity of the declination *)

Lemma cos_period_Z (x : R) (k : Z) : cos (x + 2 * IZR k * PI) = cos x.
Proof.
  destruct (Z_le_gt_dec 0 k) as [Hk | Hk].
  - rewrite <- (Z2Nat.id k Hk), <- INR_IZR_INZ. apply cos_period.
  - rewrite <- (cos_period (x + 2 * IZR k * PI) (Z.to_nat (- k))).
    rewrite INR_IZR_INZ, Z2Nat.id by lia.
    rewrite opp_IZR. f_equal. lra.
Qed.

Lemma sin_period_Z (x : R) (k : Z) : sin (x + 2 * IZR k * PI) = sin x.
Proof.
  destruct (Z_le_gt_dec 0 k) as [Hk | Hk].
  - rewrite <- (Z2Nat.id k Hk), <- INR_IZR_INZ. apply sin_period.
  - rewrite <- (sin_period (x + 2 * IZR k * PI) (Z.to_nat (- k))).
    rewrite INR_IZR_INZ, Z2Nat.id by lia.
    rewrite opp_IZR. f_equal. lra.
Qed.

Lemma harmonic_turns (j : Z) (x : R) (k : Z) :
  IZR j * (x + 2 * IZR k * PI) = IZR j * x + 2 * IZR (j * k) * PI.
Proof. rewrite mult_IZR. lra. Qed.

Lemma declination_series_period (x : R) (k : Z) :
  declination_series (x + 2 * IZR k * PI) = declination_series x.
Proof.
  unfold declination_series.
  rewrite (harmonic_turns 2), (harmonic_turns 3).
  rewrite !cos_period_Z, !sin_period_Z. reflexivity.
Qed.

Lemma time_correction_series_period (x : R) (k : Z) :
  time_correction_series (x + 2 * IZR k * PI) = time_correction_series x.
Proof.
  unfold time_correction_series.
  rewrite (harmonic_turns 2).
  rewrite !cos_period_Z, !sin_period_Z. reflexivity.
Qed.

(** C10.  [__declination_angle] has period 365.25 in the day of year:
    shifting the day by [365.25 * k] for an integer [k] changes neither
    the declination nor the time correction.  (It holds for every real
    day of year, so in particular when [doy + 365.25 * k >= 0].) *)
Theorem declination_angle_periodic (doy h : R) (k : Z) :
  __declination_angle (doy + 365.25 * IZR k) h
  = __declination_angle doy h.
Proof.
  unfold __declination_angle.
  assert (Hg : fractional_year (doy + 365.25 * IZR k) h
               = fractional_year doy h + 360 * IZR k).
  { unfold fractional_year. lra. }
  destruct (reduce_g_turns (fractional_year (doy + 365.25 * IZR k) h))
    as [n1 Hn1].
  destruct (reduce_g_turns (fractional_year doy h)) as [n0 Hn0].
  assert (Hrad :
    reduce_g (fractional_year (doy + 365.25 * IZR k) h) * to_radians
    = reduce_g (fractional_year doy h) * to_radians
      + 2 * IZR (k - Z.of_nat n1 + Z.of_nat n0) * PI).
  { rewrite Hn1, Hn0, Hg. unfold to_radians.
    rewrite plus_IZR, minus_IZR, <- !INR_IZR_INZ. lra. }
  cbv zeta. rewrite Hrad.
  rewrite declination_series_period, time_correction_series_period.
  reflexivity.
Qed.

(** ** Range of the instantaneous zenith cosine *)

(** The spherical law of cosines never leaves [-1, 1]: the expression
    lies between [- cos (a + b)] and [cos (a - b)]. *)
Lemma zenith_cosine_le_1 (a b c : R) :
  sin a * sin b + cos a * cos b * cos c <= 1.
Proof.
  pose proof (COS_bound c) as [Hc1 Hc2].
  pose proof (COS_bound (a - b)) as [_ Hm].
  pose proof (COS_bound (a + b)) as [Hp _].
  rewrite cos_minus in Hm. rewrite cos_plus in Hp.
  destruct (Rle_dec 0 (cos a * cos b)) as [Hu | Hu]; nra.
Qed.

(** In binary64 the clip never lets a negative value through. *)
Lemma SFeqb_refl_not_nan (X : spec_float) :
  SFeqb X X = false -> X = S754_nan.
Proof.
  destruct X as [s | s | | s m e]; unfold SFeqb; cbn; intros H;
    try reflexivity; try (destruct s; discriminate).
  rewrite Z.compare_refl in H.
  change (PosDef.Pos.compare_cont Eq m m) with (Pos.compare m m) in H.
  rewrite Pos.compare_refl in H. destruct s; discriminate.
Qed.

Lemma np_clip_min_f64_not_negative (x : float) :
  PrimFloat.ltb (F64.np_clip_min_f64 x 0) 0 = false.
Proof.
  unfold F64.np_clip_min_f64.
  destruct (PrimFloat.is_nan x) eqn:Hnan.
  - unfold PrimFloat.is_nan in Hnan. apply negb_true_iff in Hnan.
    rewrite eqb_spec in Hnan. apply SFeqb_refl_not_nan in Hnan.
    rewrite ltb_spec, Hnan. reflexivity.
  - destruct (PrimFloat.ltb 0 x) eqn:Hpos; [| reflexivity].
    rewrite ltb_spec in Hpos |- *.
    change (Prim2SF 0) with (S754_zero false) in *.
    destruct (Prim2SF x) as [s | s | | s m e]; cbn in *;
      try discriminate; try reflexivity;
      (destruct s; [discriminate | reflexivity]).
Qed.

(** The call with lat = -22.656021729552734 (the double
    [-0x1.6a7f10a41e4f4p+4]), lon = 46.20603832120069 on 4 January 2020
    at 9 h: the day of the year is 4, [g] is below 360 so the loop is not
    entered, and [latrad] is the double [-0x1.94e98cefcea66p-2].  At this
    input the declination the series returns is the latitude itself and
    the hour angle is -5.0e-17 rad, so [drad = latrad] and
    [np.cos(sharad)] is 1.0. *)
Lemma cos_zenith_f64_arguments :
  F64.day_of_year_f64 2020 1 4 = 4%float
  /\ F64.loop_enters_f64 (F64.fractional_year_f64 4 9) = false
  /\ ((-0x1.6a7f10a41e4f4p+4) * F64.to_radians_f64)%float
     = (-0x1.94e98cefcea66p-2)%float.
Proof. repeat split; vm_compute; reflexivity. Qed.

(** C7, as stated, fails on the program: only the lower clip exists.  At
    the input above [np.sin(latrad)] is [-0x1.8a714c20e8fc6p-2] and
    [np.cos(latrad)] is [0x1.d87db3918f19cp-1]; lines 171-177 then give
    [0x1.0000000000001p+0], that is 1.0000000000000002, above 1. *)
Lemma cos_zenith_f64_exceeds_1 :
  F64.csza_f64 (-0x1.8a714c20e8fc6p-2) (-0x1.8a714c20e8fc6p-2)
               0x1.d87db3918f19cp-1 0x1.d87db3918f19cp-1 1
  = 0x1.0000000000001p+0%float
  /\ PrimFloat.ltb 1
       (F64.csza_f64 (-0x1.8a714c20e8fc6p-2) (-0x1.8a714c20e8fc6p-2)
                     0x1.d87db3918f19cp-1 0x1.d87db3918f19cp-1 1)
     = true.
Proof. split; vm_compute; reflexivity. Qed.

(** C7, amended.  The result is clipped below at 0 and has no clip
    above.  In exact real arithmetic the value
    [sin(dec) sin(lat) + cos(dec) cos(lat) cos(hour angle)] is at most 1,
    so the result lies in [0, 1]; in binary64 the result is never
    negative, whatever [np.sin] and [np.cos] returned, and the bound 1
    holds only up to rounding. *)
Theorem cos_zenith_clipped_below_only
  (lat lon y m d h : R)
  (sin_drad sin_latrad cos_drad cos_latrad cos_sharad : float) :
  0 <= calculate_cos_solar_zenith_angle lat lon y m d h <= 1
  /\ PrimFloat.ltb
       (F64.csza_f64 sin_drad sin_latrad cos_drad cos_latrad cos_sharad) 0
     = false.
Proof.
  split.
  - unfold calculate_cos_solar_zenith_angle.
    destruct (__declination_angle (day_of_year y m d) h) as [dec tc].
    cbv zeta. unfold np_clip_min. split.
    + apply Rmax_r.
    + apply Rmax_lub; [apply zenith_cosine_le_1 | lra].
  - unfold F64.csza_f64. cbv zeta. apply np_clip_min_f64_not_negative.
Qed.

(** ** The base time does not reach the result *)

(** C2.  The result of the integrated zenith cosine does not depend on
    [base]: the offset looked up from it only enters [hh], and [hh] is
    reset to [h] before its first use.  This holds for any two values of
    [base], in particular for any two of 0, 6, 12 and 18. *)
Theorem cos_zenith_integrated_base_independent
  (lat lon y m d h b1 b2 step : R) :
  calculate_cos_solar_zenith_angle_integrated lat lon y m d h b1 step
  = calculate_cos_solar_zenith_angle_integrated lat lon y m d h b2 step.
Proof.
  unfold calculate_cos_solar_zenith_angle_integrated.
  cbv zeta.
  destruct (Reqb step 1), (Reqb step 3), (Reqb step 6); reflexivity.
Qed.

(** ** The horizon recursion *)

(** One unfolding of [horizon], as the source reads. *)
Lemma horizon_body (val rrange lonrad s e maxx : R) :
  horizon val rrange lonrad s e maxx =
  if Rlt_dec val (rrange * PI) then
    (s + lonrad - ((rrange - 1.0) * PI), e + lonrad - ((rrange - 1.0) * PI))
  else if Rlt_dec rrange maxx then
    horizon val (rrange + 2.0) lonrad s e maxx
  else
    (s + lonrad - (maxx + 1.0) * PI, e + lonrad - (maxx + 1.0) * PI).
Proof.
  rewrite horizon_equation_1.
  destruct (Rlt_dec val (rrange * PI)); simpl; [reflexivity |].
  destruct (Rlt_dec rrange maxx); reflexivity.
Qed.

Lemma next_period (r : Z) : IZR r + 2.0 = IZR (r + 2).
Proof. rewrite plus_IZR. lra. Qed.

(** From any even period [r] that is [n] steps below the cap, the
    recursion and the loop over the remaining periods agree. *)
Lemma horizon_loop_from (n : nat) :
  forall (r : Z) (val lonrad s e : R),
    (r + 2 * Z.of_nat n = 100)%Z ->
    horizon val (IZR r) lonrad s e 100
    = horizon_loop_over (range_step2 (S n) r) val lonrad s e.
Proof.
  induction n as [| n IH]; intros r val lonrad s e Hr.
  - assert (r = 100%Z) by lia. subst r.
    rewrite horizon_body. simpl.
    destruct (Rlt_dec val (100 * PI)).
    + f_equal; lra.
    + destruct (Rlt_dec 100 100); [lra | f_equal; lra].
  - rewrite horizon_body.
    change (range_step2 (S (S n)) r) with (r :: range_step2 (S n) (r + 2)).
    cbn [horizon_loop_over].
    destruct (Rlt_dec val (IZR r * PI)).
    + f_equal; lra.
    + assert (Hlt : IZR r < 100) by (apply IZR_lt; lia).
      destruct (Rlt_dec (IZR r) 100); [| lra].
      rewrite next_period. apply IH. lia.
Qed.

(** C5.  The recursive horizon resolution, entered as the source enters
    it (first period 2, cap 100), computes the same pair of shifted
    bounds as the bounded loop of the specification over
    r = 2, 4, ..., 100 with the saturated shift [lon_rad - 101 * pi]. *)
Theorem horizon_refines_bounded_loop (val lon_rad t_start t_end : R) :
  horizon val 2 lon_rad t_start t_end 100
  = horizon_loop_spec val lon_rad t_start t_end.
Proof.
  unfold horizon_loop_spec.
  apply (horizon_loop_from 49 2). reflexivity.
Qed.

(** With [n] periods left below the cap, [n + 1] invocations suffice. *)
Lemma horizon_fuel_enough (n : nat) :
  forall (r : Z) (val lonrad s e : R),
    (r + 2 * Z.of_nat n = 100)%Z ->
    horizon_fuel (S n) val (IZR r) lonrad s e 100
    = Some (horizon val (IZR r) lonrad s e 100).
Proof.
  induction n as [| n IH]; intros r val lonrad s e Hr;
    rewrite horizon_body; cbn [horizon_fuel];
    destruct (Rlt_dec val (IZR r * PI)); try reflexivity.
  - assert (r = 100%Z) by lia. subst r.
    destruct (Rlt_dec 100 100); [lra | reflexivity].
  - assert (Hlt : IZR r < 100) by (apply IZR_lt; lia).
    destruct (Rlt_dec (IZR r) 100); [| lra].
    rewrite next_period. apply IH. lia.
Qed.

Lemma horizon_measure_decreases (maxx rrange : R) :
  rrange < maxx ->
  (horizon_measure maxx (rrange + 2.0) < horizon_measure maxx rrange)%nat.
Proof.
  intros Hlt. unfold horizon_measure.
  replace (maxx - (rrange + 2.0)) with (maxx - rrange - 2) by lra.
  rewrite up_minus_2.
  assert (0 < up (maxx - rrange))%Z by (apply up_pos; lra).
  lia.
Qed.

(** The bound is reached: beyond the last period, 49 invocations are not
    enough. *)
Lemma horizon_fuel_short (n : nat) :
  forall (r : Z) (val lonrad s e : R),
    (r + 2 * Z.of_nat n <= 100)%Z -> 100 * PI <= val ->
    horizon_fuel n val (IZR r) lonrad s e 100 = None.
Proof.
  induction n as [| n IH]; intros r val lonrad s e Hr Hval; [reflexivity |].
  cbn [horizon_fuel].
  assert (Hlt : IZR r < 100) by (apply IZR_lt; lia).
  pose proof PI_RGT_0 as Hpi.
  destruct (Rlt_dec val (IZR r * PI)); [nra |].
  destruct (Rlt_dec (IZR r) 100); [| lra].
  rewrite next_period. apply IH; [lia | assumption].
Qed.

Lemma horizon_needs_50 (lonrad s e : R) :
  horizon_fuel 49 (100 * PI) 2 lonrad s e 100 = None.
Proof. apply (horizon_fuel_short 49 2); [lia | lra]. Qed.

(** The wrap loop of [__declination_angle], on the same call path. *)

Lemma reduce_g_fuel_enough (n : nat) :
  forall g : R,
    g <= 360 * (INR n + 1) ->
    reduce_g_fuel (S n) g = Some (reduce_g g).
Proof.
  induction n as [| n IH]; intros g Hg; cbn [reduce_g_fuel];
    destruct (Rgt_dec g 360) as [Hgt | Hle].
  - simpl in Hg. lra.
  - rewrite reduce_g_small by lra. reflexivity.
  - rewrite (reduce_g_big g Hgt). apply IH.
    rewrite S_INR in Hg. lra.
  - rewrite reduce_g_small by lra. reflexivity.
Qed.

Lemma reduce_g_fuel_short (n : nat) :
  forall g : R, 360 * INR n < g -> reduce_g_fuel n g = None.
Proof.
  induction n as [| n IH]; intros g Hg; [reflexivity |].
  cbn [reduce_g_fuel]. rewrite S_INR in Hg.
  pose proof (pos_INR n).
  destruct (Rgt_dec g 360); [| lra].
  apply IH. lra.
Qed.

(** Over the reals the loop always ends, but no number of tests is
    enough for every hour. *)
Lemma wrap_loop_unbounded (n : nat) :
  exists h : R, 0 <= h /\ reduce_g_fuel n (fractional_year 1 h) = None.
Proof.
  exists (24 * 365.25 * (INR n + 1)). pose proof (pos_INR n). split; [lra |].
  apply reduce_g_fuel_short. unfold fractional_year. lra.
Qed.

Lemma calendar_fractional_year (y m d h : R) :
  1 <= m <= 12 -> 1 <= d <= 31 -> 0 <= h <= 24 ->
  0 < fractional_year (day_of_year y m d) h <= 720.
Proof.
  intros Hm Hd Hh.
  unfold fractional_year, day_of_year, __julian_date. lra.
Qed.

Lemma reduce_g_f64_stuck (g : float) :
  F64.loop_enters_f64 g = true -> (g - 360)%float = g ->
  forall fuel : nat, F64.reduce_g_f64 fuel g = None.
Proof.
  intros Henter Hsame fuel.
  induction fuel as [| fuel IH]; [reflexivity |].
  cbn [F64.reduce_g_f64]. rewrite Henter, Hsame. exact IH.
Qed.

(** C9, as stated, fails on the program: not every call terminates.  On
    1 January (day of year 1.0) with h = 1e22 the angle [g] is
    4.1067761806981516e+20; in binary64 [g > 360] holds and [g - 360] is
    [g] again, so the loop of lines 35-36 never exits, whatever the
    number of tests allowed. *)
Lemma wrap_loop_never_exits_f64 :
  F64.day_of_year_f64 2020 1 1 = 1%float
  /\ F64.loop_enters_f64 (F64.fractional_year_f64 1 1e22) = true
  /\ (F64.fractional_year_f64 1 1e22 - 360)%float
     = F64.fractional_year_f64 1 1e22
  /\ (forall fuel : nat,
        F64.reduce_g_f64 fuel (F64.fractional_year_f64 1 1e22) = None).
Proof.
  assert (H1 : F64.loop_enters_f64 (F64.fractional_year_f64 1 1e22) = true)
    by (vm_compute; reflexivity).
  assert (H2 : (F64.fractional_year_f64 1 1e22 - 360)%float
               = F64.fractional_year_f64 1 1e22)
    by (vm_compute; reflexivity).
  split; [vm_compute; reflexivity |].
  split; [exact H1 |]. split; [exact H2 |].
  apply reduce_g_f64_stuck; assumption.
Qed.

(** C9, amended.  On calendar inputs (month 1..12, day 1..31, hour
    0..24) a call is a bounded computation: the wrap loop ends within two
    tests of its condition (one subtraction at most), and the horizon
    search, whatever the angle, returns within 50 invocations, each
    recursive call strictly decreasing the distance from [rrange] up to
    [maxx]. *)
Theorem cos_zenith_integrated_terminates_on_calendar
  (y m d h val lonrad s e : R) :
  1 <= m <= 12 -> 1 <= d <= 31 -> 0 <= h <= 24 ->
  reduce_g_fuel 2 (fractional_year (day_of_year y m d) h)
  = Some (reduce_g (fractional_year (day_of_year y m d) h))
  /\ horizon_fuel 50 val 2 lonrad s e 100
     = Some (horizon val 2 lonrad s e 100)
  /\ (forall maxx rrange : R,
        rrange < maxx ->
        (horizon_measure maxx (rrange + 2.0)
         < horizon_measure maxx rrange)%nat).
Proof.
  intros Hm Hd Hh.
  destruct (calendar_fractional_year y m d h Hm Hd Hh) as [_ Hg].
  split; [| split].
  - apply (reduce_g_fuel_enough 1). simpl. lra.
  - apply (horizon_fuel_enough 49 2). reflexivity.
  - intros maxx rrange Hlt. apply horizon_measure_decreases, Hlt.
Qed.

Lemma cos_zenith_integrated_terminates_on_calendar_witness :
  (1 <= 12 <= 12 /\ 1 <= 31 <= 31 /\ 0 <= 24 <= 24)
  /\ reduce_g_fuel 2 (fractional_year (day_of_year 2020 12 31) 24)
     = Some (reduce_g (fractional_year (day_of_year 2020 12 31) 24))
  /\ horizon_fuel 50 7 2 1 0 1 100 = Some (horizon 7 2 1 0 1 100)
  /\ 2 < 100
  /\ (horizon_measure 100 (2 + 2.0) < horizon_measure 100 2)%nat.
Proof.
  assert (Hm : 1 <= 12 <= 12) by lra.
  assert (Hd : 1 <= 31 <= 31) by lra.
  assert (Hh : 0 <= 24 <= 24) by lra.
  assert (Hr : 2 < 100) by lra.
  destruct (cos_zenith_integrated_terminates_on_calendar
              2020 12 31 24 7 1 0 1 Hm Hd Hh) as [Hloop [Hret Hdec]].
  split; [repeat split; lra |].
  split; [exact Hloop |]. split; [exact Hret |].
  split; [exact Hr | exact (Hdec 100 2 Hr)].
Defined.

(** ** Polar night *)

(** Elementary bounds on sine and cosine near zero. *)
Lemma PI_gt_3 : 3 < PI.
Proof. pose proof PI2_3_2. lra. Qed.

Lemma sin_le_id (x : R) : 0 <= x -> - x <= sin x <= x.
Proof.
  intros Hx. split.
  - destruct (Rle_dec x 1) as [H1 | H1].
    + pose proof PI_gt_3. pose proof (sin_ge_0 x). lra.
    + pose proof (SIN_bound x). lra.
  - destruct (Req_dec x 0) as [-> | Hn].
    + rewrite sin_0. lra.
    + pose proof (sin_lt_x x). lra.
Qed.

Lemma sin_sqr_le (x : R) : sin x * sin x <= x * x.
Proof.
  destruct (Rle_dec 0 x) as [Hx | Hx].
  - pose proof (sin_le_id x Hx). nra.
  - assert (H : 0 <= - x) by lra.
    pose proof (sin_le_id (- x) H) as Hs. rewrite sin_neg in Hs. nra.
Qed.

Lemma cos_ge_parabola (t : R) : 1 - t * t / 2 <= cos t.
Proof.
  replace t with (2 * (t / 2)) at 3 by lra.
  rewrite cos_2a_sin.
  pose proof (sin_sqr_le (t / 2)). nra.
Qed.

Lemma sin_ge_cubic (y : R) :
  0 <= y <= 1 -> y - y * y * y / 6 - y / 5040 <= sin y.
Proof.
  intros [H0 H1].
  pose proof PI_gt_3.
  assert (Hpi : y <= PI) by lra.
  destruct (SIN y H0 Hpi) as [Hlb _].
  unfold sin_lb, sin_approx, sin_term in Hlb.
  cbn -[INR Factorial.fact] in Hlb.
  rewrite !INR_IZR_INZ in Hlb.
  cbn in Hlb.
  assert (Hu : 0 <= y * y <= 1) by nra.
  assert (Hu2 : 0 <= (y * y) * (y * y) <= 1) by nra.
  assert (Hu3 : 0 <= (y * y) * ((y * y) * (y * y)) <= 1) by nra.
  assert (H5 : 0 <= y * (y * (y * (y * (y * 1))))).
  { replace (y * (y * (y * (y * (y * 1))))) with (y * ((y * y) * (y * y)))
      by ring.
    apply Rmult_le_pos; lra. }
  assert (H7 : y * (y * (y * (y * (y * (y * (y * 1)))))) <= y).
  { replace (y * (y * (y * (y * (y * (y * (y * 1)))))))
      with (y * ((y * y) * ((y * y) * (y * y)))) by ring.
    nra. }
  replace (y * y * y) with (y * (y * (y * 1))) by ring.
  lra.
Qed.

Lemma winter_declination (t : R) :
  -0.645 <= t <= 0.04 -> -26 <= declination_series t <= -14.
Proof.
  intros Ht. unfold declination_series.
  pose proof (cos_ge_parabola t) as Hc.
  pose proof (COS_bound t) as Hc1.
  pose proof (sin_sqr_le t) as Hs.
  pose proof (COS_bound (2 * t)). pose proof (SIN_bound (2 * t)).
  pose proof (COS_bound (3 * t)). pose proof (SIN_bound (3 * t)).
  assert (Hsin : -0.645 <= sin t <= 0.645) by nra.
  assert (Hcos : 0.79 <= cos t) by nra.
  lra.
Qed.

Lemma winter_sine (d : R) :
  -26 <= d <= -14 -> sin (d * PI / 180) <= -0.2 /\ 0 < cos (d * PI / 180) <= 1.
Proof.
  intros Hd. pose proof PI_gt_3 as H3. pose proof PI_4 as H4.
  pose proof PI2_1 as H21.
  set (x := d * PI / 180).
  assert (Hx : -0.578 <= x <= -0.233) by (unfold x; nra).
  split.
  - assert (Hy : 0 <= - x <= 1) by lra.
    pose proof (sin_ge_cubic (- x) Hy) as Hs. rewrite sin_neg in Hs.
    nra.
  - split; [apply cos_gt_0; lra | apply COS_bound].
Qed.

(** In the source's arithmetic the day of the year in December is
    [d + 334.805625], whatever the year. *)
Lemma day_of_year_december (y d : R) : day_of_year y 12 d = d + 334.805625.
Proof. unfold day_of_year, __julian_date. lra. Qed.

(** In December the wrapped angle is within 0.645 rad before and 0.04 rad
    after a whole turn. *)
Lemma december_angle (y d h : R) :
  1 <= d <= 31 -> 0 <= h <= 24 ->
  exists t : R,
    -0.645 <= t <= 0.04
    /\ fst (__declination_angle (day_of_year y 12 d) h) = declination_series t.
Proof.
  intros Hd Hh. rewrite day_of_year_december.
  unfold __declination_angle. cbv zeta. cbn [fst].
  set (g := fractional_year (d + 334.805625) h).
  assert (Hg : 330.978 <= g <= 361.54) by (unfold g, fractional_year; lra).
  pose proof PI_gt_3 as H3. pose proof PI_4 as H4.
  unfold to_radians.
  destruct (Rle_dec g 360) as [Hle | Hgt].
  - rewrite (reduce_g_small g Hle).
    exists ((g - 360) * PI / 180). split; [nra |].
    rewrite <- (declination_series_period ((g - 360) * PI / 180) 1).
    f_equal. lra.
  - rewrite reduce_g_big, reduce_g_small by lra.
    exists ((g - 360) * PI / 180). split; [nra |].
    f_equal. lra.
Qed.

Lemma sunset_cosine_december_pole (y d h : R) :
  1 <= d <= 31 -> 0 <= h <= 24 -> sunset_cosine 90 y 12 d h > 1.
Proof.
  intros Hd Hh. unfold sunset_cosine.
  destruct (december_angle y d h Hd Hh) as [t [Ht Hdec]].
  rewrite Hdec.
  pose proof (winter_declination t Ht) as Hrange.
  destruct (winter_sine _ Hrange) as [Hsin [Hcos0 Hcos1]].
  unfold zcoshouranglesunset_of, ztandec_of, np_clip_min, py_max, to_radians.
  replace (90 * (PI / 180)) with (PI / 2) by lra.
  rewrite sin_PI2, cos_PI2.
  rewrite (Rmax_right 0) by lra.
  set (s := sin (declination_series t * PI / 180)) in *.
  set (D := Rmax (cos (declination_series t * PI / 180)) 1.0e-12).
  assert (HD : 1.0e-12 <= D <= 1).
  { unfold D. split; [apply Rmax_r | apply Rmax_lub; lra]. }
  assert (Hq : s / D <= -0.2).
  { apply (Rmult_le_reg_r D); [lra |].
    unfold Rdiv. rewrite Rmult_assoc, Rinv_l by lra. nra. }
  apply Rlt_gt.
  apply (Rmult_lt_reg_r 1.0e-12); [lra |].
  unfold Rdiv. rewrite Rmult_assoc, Rinv_l by lra.
  fold (s / D). lra.
Qed.

Lemma polar_night_zero (lat lon y m d h base step : R) :
  sunset_cosine lat y m d h > 1 ->
  calculate_cos_solar_zenith_angle_integrated lat lon y m d h base step = 0.
Proof.
  unfold sunset_cosine, calculate_cos_solar_zenith_angle_integrated.
  destruct (__declination_angle (day_of_year y m d) h) as [dec tc].
  cbn [fst]. cbv zeta. intros Hnight.
  destruct (Reqb step 1), (Reqb step 3), (Reqb step 6);
    unfold solar_zenith_angle_average;
    (destruct (Rle_dec (zcoshouranglesunset_of dec (lat * to_radians)) 1);
     [lra | reflexivity]).
Qed.

(** C6.  A grid point in permanent polar night gets 0 from the integrated
    zenith cosine, for every longitude, base and step: whenever the
    sunset cosine the function computes exceeds 1, and in particular at
    latitude 90 in December (day 1 to 31) at every hour of the day. *)
Theorem cos_zenith_integrated_polar_night (lat lon y m d h base step : R) :
  sunset_cosine lat y m d h > 1
  \/ (lat = 90 /\ m = 12 /\ 1 <= d <= 31 /\ 0 <= h <= 24) ->
  calculate_cos_solar_zenith_angle_integrated lat lon y m d h base step = 0.
Proof.
  intros [Hnight | [-> [-> [Hd Hh]]]]; apply polar_night_zero.
  - exact Hnight.
  - apply sunset_cosine_december_pole; assumption.
Qed.

Lemma cos_zenith_integrated_polar_night_witness :
  (90 = 90 /\ 12 = 12 /\ 1 <= 21 <= 31 /\ 0 <= 12 <= 24)
  /\ calculate_cos_solar_zenith_angle_integrated 90 0 2020 12 21 12 0 3 = 0.
Proof.
  assert (H : 90 = 90 /\ 12 = 12 /\ 1 <= 21 <= 31 /\ 0 <= 12 <= 24).
  { repeat split; lra. }
  split; [exact H |].
  exact (cos_zenith_integrated_polar_night 90 0 2020 12 21 12 0 3
           (or_intror H)).
Defined.

(** ** Mean radiant temperature *)

Lemma tabulate_ext {A : Type} (n : nat) (f g : nat -> A) :
  (forall i, (i < n)%nat -> f i = g i) -> tabulate n f = tabulate n g.
Proof.
  intros H. unfold tabulate. apply map_ext_in.
  intros i Hi. apply in_seq in Hi. apply H. lia.
Qed.

Lemma nth_tabulate {A : Type} (n : nat) (f : nat -> A) (i : nat) (d : A) :
  (i < n)%nat -> nth i (tabulate n f) d = f i.
Proof.
  intros Hi. unfold tabulate.
  rewrite (nth_indep _ d (f 0%nat)) by (rewrite length_map, length_seq; exact Hi).
  rewrite map_nth, seq_nth by exact Hi. reflexivity.
Qed.

Lemma item_tabulate (n : nat) (f : nat -> R) (i : nat) :
  (i < n)%nat -> item (tabulate n f) i = f i.
Proof. apply nth_tabulate. Qed.

Lemma tabulate_item (a : ndarray) : tabulate (length a) (item a) = a.
Proof.
  apply (nth_ext _ _ 0 0).
  - unfold tabulate. rewrite length_map, length_seq. reflexivity.
  - intros i Hi. unfold tabulate in Hi. rewrite length_map, length_seq in Hi.
    rewrite nth_tabulate by exact Hi. reflexivity.
Qed.

Lemma item_repeat (x : R) (n i : nat) : (i < n)%nat -> item (repeat x n) i = x.
Proof. intros Hi. unfold item. apply nth_repeat_lt. exact Hi. Qed.

Lemma fp_of_0 : fp_of 0 = Some 0.
Proof.
  unfold fp_of, np_arcsin, Rleb.
  destruct (Rle_dec (-1) 0); [| lra].
  destruct (Rle_dec 0 1); [| lra].
  cbn [andb]. rewrite asin_0. f_equal. unfold Rdiv. ring.
Qed.

Lemma filtered_fdir_dark (fdir cossza : R) :
  cossza <= 0.01 -> filtered_fdir fdir cossza = fdir.
Proof.
  intros H. unfold filtered_fdir. destruct (Rgt_dec cossza 0.01); [lra | reflexivity].
Qed.

Lemma filtered_fdir_lit (fdir cossza : R) :
  cossza > 0.01 -> filtered_fdir fdir cossza = fdir / cossza.
Proof.
  intros H. unfold filtered_fdir. destruct (Rgt_dec cossza 0.01); [reflexivity | lra].
Qed.

Lemma mrtcal_of_dark (strd strr ssrd : R) :
  option_map __kelvin_to_celcius
    (mrtcal_of strd (strd - strr) (ssrd - 0) (ssrd - ssrd) 0 0)
  = mrt_diffuse_only strd strr ssrd.
Proof.
  unfold mrtcal_of, mrt_diffuse_only. do 2 f_equal. lra.
Qed.

(** The call on six separate arrays of one shape with [fdir] and
    [cossza] all zero and [ssr] equal to [ssrd]. *)
Lemma mrt_dark_call (ssrd strd strr : ndarray) (n : nat) :
  length ssrd = n -> length strd = n -> length strr = n ->
  let hp := [ssrd; ssrd; repeat 0 n; strd; strr; repeat 0 n] in
  (calculate_mean_radiant_temperature hp 0 1 2 3 4 5)%nat
  = Some (tabulate n (fun i =>
            mrt_diffuse_only (item strd i) (item strr i) (item ssrd i)),
          hp).
Proof.
  intros H1 H2 H3 hp. unfold calculate_mean_radiant_temperature, hp.
  cbn [load nth_error same_shape forallb].
  rewrite H1, H2, H3, repeat_length, Nat.eqb_refl. cbn [andb].
  assert (Hfd : tabulate n (fun i =>
                  filtered_fdir (item (repeat 0 n) i) (item (repeat 0 n) i))
                = repeat 0 n).
  { transitivity (tabulate (length (repeat 0 n)) (item (repeat 0 n)));
      [| apply tabulate_item].
    rewrite repeat_length. apply tabulate_ext. intros i Hi.
    apply filtered_fdir_dark. rewrite item_repeat by exact Hi. lra. }
  rewrite Hfd. cbn [store load nth_error].
  f_equal. f_equal.
  unfold tabulate at 1. rewrite map_map. apply tabulate_ext.
  intros i Hi.
  rewrite nth_tabulate by exact Hi.
  rewrite !item_tabulate by exact Hi.
  rewrite !item_repeat by exact Hi.
  rewrite fp_of_0. apply mrtcal_of_dark.
Qed.

Lemma np_power_inj (x1 x2 y : R) :
  0 < x1 -> 0 < x2 -> y <> 0 -> np_power x1 y = np_power x2 y -> x1 = x2.
Proof.
  intros H1 H2 Hy. unfold np_power, Rltb.
  destruct (Rlt_dec 0 x1); [| lra]. destruct (Rlt_dec 0 x2); [| lra].
  intros Heq. injection Heq as Heq. unfold Rpower in Heq.
  apply exp_inv in Heq. apply Rmult_eq_reg_l in Heq; [| exact Hy].
  apply ln_inv; assumption.
Qed.

Lemma mrt_diffuse_only_ssrd (ssrd1 ssrd2 : R) :
  0 <= ssrd1 -> 0 <= ssrd2 ->
  mrt_diffuse_only 350 (-50) ssrd1 = mrt_diffuse_only 350 (-50) ssrd2 ->
  ssrd1 = ssrd2.
Proof.
  intros H1 H2. unfold mrt_diffuse_only. intros Heq.
  assert (Hk : forall a b : option R,
             option_map __kelvin_to_celcius a = option_map __kelvin_to_celcius b
             -> a = b).
  { intros [a |] [b |]; cbn; intros E; try discriminate; [| reflexivity].
    injection E as E. unfold __kelvin_to_celcius in E. f_equal. lra. }
  apply Hk in Heq. apply np_power_inj in Heq; lra.
Qed.

(** C3, as stated, fails: with [fdir = 0], [ssr = ssrd], [cossza = 0] and
    the same [strd = 350], [strr = -50], the calls with [ssrd = 0] and
    with [ssrd = 100] return different values. *)
Lemma mrt_depends_on_ssrd :
  option_map fst
    (calculate_mean_radiant_temperature
       [[0]; [0]; [0]; [350]; [-50]; [0]] 0%nat 1%nat 2%nat 3%nat 4%nat 5%nat)
  <> option_map fst
       (calculate_mean_radiant_temperature
          [[100]; [100]; [0]; [350]; [-50]; [0]] 0%nat 1%nat 2%nat 3%nat 4%nat 5%nat).
Proof.
  assert (E0 :
    calculate_mean_radiant_temperature
      [[0]; [0]; [0]; [350]; [-50]; [0]] 0%nat 1%nat 2%nat 3%nat 4%nat 5%nat
    = Some ([mrt_diffuse_only 350 (-50) 0],
            [[0]; [0]; [0]; [350]; [-50]; [0]]))
    by exact (mrt_dark_call [0] [350] [-50] 1 eq_refl eq_refl eq_refl).
  assert (E1 :
    calculate_mean_radiant_temperature
      [[100]; [100]; [0]; [350]; [-50]; [0]] 0%nat 1%nat 2%nat 3%nat 4%nat 5%nat
    = Some ([mrt_diffuse_only 350 (-50) 100],
            [[100]; [100]; [0]; [350]; [-50]; [0]]))
    by exact (mrt_dark_call [100] [350] [-50] 1 eq_refl eq_refl eq_refl).
  rewrite E0, E1. cbn [option_map fst].
  intros Heq. injection Heq as Heq.
  apply mrt_diffuse_only_ssrd in Heq; lra.
Qed.

(** C3, amended.  With [fdir = 0], [ssr = ssrd] and [cossza = 0] (arrays
    of one shape) the term weighted by [fp] vanishes and every element of
    the result is the function [mrt_diffuse_only] of [strd], [strr] and
    [ssrd]: the diffuse half [0.5 * (ssrd - fdir) = 0.5 * ssrd] stays. *)
Theorem mrt_dark_is_function_of_strd_strr_ssrd
  (ssrd strd strr : ndarray) (n : nat) :
  length ssrd = n -> length strd = n -> length strr = n ->
  option_map fst
    (calculate_mean_radiant_temperature
       [ssrd; ssrd; repeat 0 n; strd; strr; repeat 0 n] 0%nat 1%nat 2%nat 3%nat 4%nat 5%nat)
  = Some (tabulate n (fun i =>
            mrt_diffuse_only (item strd i) (item strr i) (item ssrd i))).
Proof.
  intros H1 H2 H3.
  pose proof (mrt_dark_call ssrd strd strr n H1 H2 H3) as E.
  cbv zeta in E. rewrite E. reflexivity.
Qed.

Lemma mrt_dark_is_function_of_strd_strr_ssrd_witness :
  option_map fst
    (calculate_mean_radiant_temperature
       [[100; 0]; [100; 0]; repeat 0 2; [350; 300]; [-50; -40]; repeat 0 2]
       0%nat 1%nat 2%nat 3%nat 4%nat 5%nat)
  = Some (tabulate 2 (fun i =>
            mrt_diffuse_only (item [350; 300] i) (item [-50; -40] i)
                             (item [100; 0] i))).
Proof.
  exact (mrt_dark_is_function_of_strd_strr_ssrd
           [100; 0] [350; 300] [-50; -40] 2 eq_refl eq_refl eq_refl).
Defined.

(** *** What the call leaves in the object store *)

Lemma load_store_other (hp : heap) (r r' : ref) (a : ndarray) :
  r <> r' -> load (store hp r a) r' = load hp r'.
Proof.
  unfold load. revert r r'.
  induction hp as [| x hp IH]; intros [| r] [| r'] Hne;
    cbn [store nth_error]; try reflexivity; try congruence.
  apply IH. congruence.
Qed.

Lemma load_store_same (hp : heap) (r : ref) (a : ndarray) :
  (r < length hp)%nat -> load (store hp r a) r = Some a.
Proof.
  unfold load. revert r.
  induction hp as [| x hp IH]; intros [| r] Hr; cbn in Hr;
    cbn [store nth_error]; try lia; try reflexivity.
  apply IH. lia.
Qed.

(** Every object other than the one passed as [fdir] is left as it was. *)
Lemma mrt_frame (hp hp' : heap) (ssrd ssr fdir strd strr cossza : ref)
  (mrt : list (option R)) :
  calculate_mean_radiant_temperature hp ssrd ssr fdir strd strr cossza
  = Some (mrt, hp') ->
  forall r : ref, r <> fdir -> load hp' r = load hp r.
Proof.
  unfold calculate_mean_radiant_temperature.
  destruct (load hp ssrd) as [v_ssrd |]; [| discriminate].
  destruct (load hp ssr) as [v_ssr |]; [| discriminate].
  destruct (load hp fdir) as [v_fdir |]; [| discriminate].
  destruct (load hp strd) as [v_strd |]; [| discriminate].
  destruct (load hp strr) as [v_strr |]; [| discriminate].
  destruct (load hp cossza) as [v_cossza |]; [| discriminate].
  cbv zeta.
  destruct (same_shape _ _); [| discriminate].
  destruct (load (store hp fdir _) strd); [| discriminate].
  destruct (load (store hp fdir _) fdir); [| discriminate].
  intros E r Hr. injection E as _ <-.
  apply load_store_other. congruence.
Qed.

(** C4.  The call is not free of effects on its inputs: where
    [cossza > 0.01] it overwrites the caller's [fdir] array with
    [fdir / cossza].  On the arrays below [fdir] holds 600 before the
    call and 1200 after it. *)
Theorem mrt_overwrites_fdir :
  let hp := [[1000]; [800]; [600]; [350]; [-50]; [0.5]] in
  load hp 2%nat = Some [600]
  /\ option_map snd
       (calculate_mean_radiant_temperature hp 0%nat 1%nat 2%nat 3%nat 4%nat 5%nat)
     = Some [[1000]; [800]; [1200]; [350]; [-50]; [0.5]].
Proof.
  cbv zeta. split; [reflexivity |].
  unfold calculate_mean_radiant_temperature.
  cbn [load nth_error same_shape forallb length Nat.eqb andb].
  cbn [tabulate seq map store item nth load nth_error option_map snd].
  assert (E : filtered_fdir 600 0.5 = 1200).
  { rewrite filtered_fdir_lit; lra. }
  rewrite E. reflexivity.
Qed.

(** * Further properties of the code *)

(** ** Calendar arithmetic *)

(** With true division the Julian date is an affine function of day,
    month and year. *)
Lemma julian_date_affine (d m y : R) :
  __julian_date d m y = d + 30.436875 * m + 365.2425 * y + 1721029.13375.
Proof. unfold __julian_date. lra. Qed.

(** X1.  The day of the year computed at lines 161-163 (and again at
    228-230) does not depend on the year: it is [d + (m - 1) * 30.436875],
    so every month counts 30.436875 days and leap years play no part. *)
Theorem day_of_year_closed_form (y m d : R) :
  day_of_year y m d = d + (m - 1) * 30.436875.
Proof. unfold day_of_year. rewrite !julian_date_affine. lra. Qed.

(** X2.  On calendar dates (months 1..12, days 1..31) the Julian date is
    strictly increasing in calendar order, across month and year ends. *)
Theorem julian_date_increasing (y1 m1 d1 y2 m2 d2 : Z) :
  (1 <= m1 <= 12)%Z -> (1 <= d1 <= 31)%Z ->
  (1 <= m2 <= 12)%Z -> (1 <= d2 <= 31)%Z ->
  date_before y1 m1 d1 y2 m2 d2 ->
  __julian_date (IZR d1) (IZR m1) (IZR y1)
  < __julian_date (IZR d2) (IZR m2) (IZR y2).
Proof.
  intros [Hm1 Hm1'] [Hd1 Hd1'] [Hm2 Hm2'] [Hd2 Hd2'] Hlt.
  rewrite !julian_date_affine.
  apply IZR_le in Hm1, Hm1', Hd1, Hd1', Hm2, Hm2', Hd2, Hd2'.
  destruct Hlt as [Hy | [-> [Hm | [-> Hd]]]].
  - assert (Hy' : IZR y1 + 1 <= IZR y2).
    { rewrite <- plus_IZR. apply IZR_le. lia. }
    lra.
  - assert (Hm' : IZR m1 + 1 <= IZR m2).
    { rewrite <- plus_IZR. apply IZR_le. lia. }
    lra.
  - apply IZR_lt in Hd. lra.
Qed.

Lemma julian_date_increasing_witness :
  __julian_date (IZR 31) (IZR 12) (IZR 1999)
  < __julian_date (IZR 1) (IZR 1) (IZR 2000).
Proof.
  apply (julian_date_increasing 1999 12 31 2000 1 1); try lia.
  left. lia.
Defined.

(** ** The wrap loop *)

(** X3.  The loop of lines 35-36 leaves [g] alone exactly when
    [g <= 360] (so no negative angle is ever wrapped), and running it on
    its own result changes nothing. *)
Theorem reduce_g_fixed_points (g : R) :
  (reduce_g g = g <-> g <= 360)
  /\ reduce_g (reduce_g g) = reduce_g g.
Proof.
  split; [split |].
  - intros H. rewrite <- H. apply reduce_g_le.
  - apply reduce_g_small.
  - apply reduce_g_small, reduce_g_le.
Qed.

(** ** Range of the declination and of the time correction *)

Lemma declination_series_range (grad : R) :
  -28.02 <= declination_series grad <= 28.02.
Proof.
  unfold declination_series.
  pose proof (COS_bound grad). pose proof (SIN_bound grad).
  pose proof (COS_bound (2 * grad)). pose proof (SIN_bound (2 * grad)).
  pose proof (COS_bound (3 * grad)). pose proof (SIN_bound (3 * grad)).
  lra.
Qed.

Lemma time_correction_series_range (grad : R) :
  -5.13 <= time_correction_series grad <= 5.13.
Proof.
  unfold time_correction_series.
  pose proof (COS_bound grad). pose proof (SIN_bound grad).
  pose proof (COS_bound (2 * grad)). pose proof (SIN_bound (2 * grad)).
  lra.
Qed.

(** X4.  Whatever the day and hour, the declination returned by
    [__declination_angle] stays within 28.02 degrees of zero and the time
    correction within 5.13 hour-degrees. *)
Theorem declination_angle_range (jd h : R) :
  -28.02 <= fst (__declination_angle jd h) <= 28.02
  /\ -5.13 <= snd (__declination_angle jd h) <= 5.13.
Proof.
  unfold __declination_angle. cbv zeta. cbn [fst snd]. split.
  - apply declination_series_range.
  - apply time_correction_series_range.
Qed.

(** X5.  The floor [1.0e-12] under [cos(dec)] at line 245 never acts on a
    declination that [__declination_angle] returns: [ztandec] is the
    tangent of the declination. *)
Theorem ztandec_is_tangent (jd h : R) :
  let d := fst (__declination_angle jd h) in
  ztandec_of d = tan (d * PI / 180).
Proof.
  intros d.
  assert (Hd : -28.02 <= d <= 28.02).
  { unfold d, __declination_angle. cbv zeta. cbn [fst].
    apply declination_series_range. }
  unfold ztandec_of, py_max, tan.
  pose proof PI_gt_3 as H3. pose proof PI_4 as H4.
  assert (Hx : -0.63 <= d * PI / 180 <= 0.63) by nra.
  pose proof (cos_ge_parabola (d * PI / 180)) as Hc.
  rewrite Rmax_left by nra. reflexivity.
Qed.

(** ** The instantaneous zenith cosine in longitude and at the poles *)

(** X6.  The instantaneous zenith cosine has period 360 degrees in the
    longitude: longitudes given in [0, 360) or in [-180, 180) give the
    same value. *)
Theorem cos_zenith_longitude_periodic (lat lon y m d h : R) (k : Z) :
  calculate_cos_solar_zenith_angle lat (lon + 360 * IZR k) y m d h
  = calculate_cos_solar_zenith_angle lat lon y m d h.
Proof.
  unfold calculate_cos_solar_zenith_angle.
  destruct (__declination_angle (day_of_year y m d) h) as [dec tc].
  cbv zeta. unfold to_radians.
  replace (((h - 12) * 15 + (lon + 360 * IZR k) + tc) * (PI / 180))
    with (((h - 12) * 15 + lon + tc) * (PI / 180) + 2 * IZR k * PI) by lra.
  rewrite cos_period_Z. reflexivity.
Qed.

(** X7.  At either pole (latitude 90 or -90) the instantaneous zenith
    cosine does not depend on the longitude. *)
Theorem cos_zenith_pole_longitude_free (lon1 lon2 y m d h : R) :
  calculate_cos_solar_zenith_angle 90 lon1 y m d h
  = calculate_cos_solar_zenith_angle 90 lon2 y m d h
  /\ calculate_cos_solar_zenith_angle (-90) lon1 y m d h
     = calculate_cos_solar_zenith_angle (-90) lon2 y m d h.
Proof.
  unfold calculate_cos_solar_zenith_angle.
  destruct (__declination_angle (day_of_year y m d) h) as [dec tc].
  cbv zeta. unfold to_radians.
  replace (90 * (PI / 180)) with (PI / 2) by lra.
  replace (-90 * (PI / 180)) with (- (PI / 2)) by lra.
  rewrite cos_neg, cos_PI2.
  split; f_equal; ring.
Qed.

(** ** The horizon shift *)

Lemma horizon_shift (val rrange lonrad s e maxx : R) :
  exists c : R, horizon val rrange lonrad s e maxx = (s + c, e + c).
Proof.
  funelim (horizon val rrange lonrad s e maxx).
  - exists (lonrad - (rrange - 1.0) * PI). f_equal; lra.
  - assumption.
  - exists (lonrad - (maxx + 1.0) * PI). f_equal; lra.
Qed.

(** X8.  [horizon] moves both ends of the window by the same amount: the
    width of the window it returns is the width it was given, for every
    angle, starting period and cap. *)
Theorem horizon_keeps_width (val rrange lonrad s e maxx : R) :
  snd (horizon val rrange lonrad s e maxx)
  - fst (horizon val rrange lonrad s e maxx) = e - s.
Proof.
  destruct (horizon_shift val rrange lonrad s e maxx) as [c ->].
  cbn [fst snd]. lra.
Qed.

Lemma next_half_period (j : Z) : 2 * IZR j + 2.0 = 2 * IZR (j + 1).
Proof. rewrite plus_IZR. lra. Qed.

Lemma horizon_folds_from (n : nat) :
  forall (j : Z) (val lonrad s e : R),
    (j + Z.of_nat n = 50)%Z ->
    (2 * IZR j - 2) * PI <= val < 100 * PI ->
    exists j' : Z,
      (j <= j' <= 50)%Z
      /\ horizon val (2 * IZR j) lonrad s e 100
         = (s + lonrad - (2 * IZR j' - 1) * PI,
            e + lonrad - (2 * IZR j' - 1) * PI)
      /\ - PI <= val - (2 * IZR j' - 1) * PI < PI.
Proof.
  induction n as [| n IH]; intros j val lonrad s e Hj [Hlo Hhi];
    rewrite horizon_body;
    destruct (Rlt_dec val (2 * IZR j * PI)) as [Hres | Hres].
  - exists j. repeat split; try lia; try lra. f_equal; lra.
  - exfalso. assert (j = 50%Z) by lia. subst j. lra.
  - exists j. repeat split; try lia; try lra. f_equal; lra.
  - assert (Hlt : 2 * IZR j < 100).
    { assert (Hj' : IZR j + 1 <= 50).
      { rewrite <- plus_IZR. apply IZR_le. lia. }
      lra. }
    destruct (Rlt_dec (2 * IZR j) 100); [| lra].
    rewrite next_half_period.
    destruct (IH (j + 1)%Z val lonrad s e) as [j' [Hr [Heq Hin]]].
    + lia.
    + rewrite plus_IZR. split; lra.
    + exists j'. repeat split; try lia; [exact Heq | lra | lra].
Qed.

(** X9.  For an angle [0 <= val < 100 * pi] the horizon search, entered
    as the source enters it, subtracts the odd multiple [(2 j - 1) * pi]
    (with [j] between 1 and 50) that brings the angle into [-pi, pi). *)
Theorem horizon_folds_into_half_turn (val lonrad s e : R) :
  0 <= val < 100 * PI ->
  exists j : Z,
    (1 <= j <= 50)%Z
    /\ horizon val 2 lonrad s e 100
       = (s + lonrad - (2 * IZR j - 1) * PI,
          e + lonrad - (2 * IZR j - 1) * PI)
    /\ - PI <= val - (2 * IZR j - 1) * PI < PI.
Proof.
  intros [Hlo Hhi].
  destruct (horizon_folds_from 49 1 val lonrad s e) as [j [Hj [Heq Hin]]];
    [reflexivity | split; lra |].
  replace (2 * 1) with 2 in Heq by lra.
  exists j. repeat split; try lia; [exact Heq | lra | lra].
Qed.

Lemma horizon_folds_into_half_turn_witness :
  exists j : Z,
    (1 <= j <= 50)%Z
    /\ horizon 7 2 1 0 1 100
       = (0 + 1 - (2 * IZR j - 1) * PI, 1 + 1 - (2 * IZR j - 1) * PI)
    /\ - PI <= 7 - (2 * IZR j - 1) * PI < PI.
Proof.
  apply horizon_folds_into_half_turn.
  pose proof PI_gt_3. split; lra.
Defined.

(** ** Range of the period-averaged zenith cosine *)

Lemma zenith_cosine_le_1_weighted (a b c : R) :
  -1 <= c <= 1 -> sin a * sin b + cos a * cos b * c <= 1.
Proof.
  intros Hc.
  pose proof (COS_bound (a - b)) as [_ Hm].
  pose proof (COS_bound (a + b)) as [Hp _].
  rewrite cos_minus in Hm. rewrite cos_plus in Hp.
  destruct (Rle_dec 0 (cos a * cos b)) as [Hu | Hu]; nra.
Qed.

(** The mean of the cosine over a window is the slope of a chord of the
    sine, which lies in [-1, 1]. *)
Lemma sine_chord_slope (s e : R) :
  0 < e - s -> -1 <= (sin e - sin s) / (e - s) <= 1.
Proof.
  intros Hw. rewrite form4.
  assert (Hd : 0 <= (e - s) / 2) by lra.
  pose proof (sin_le_id _ Hd) as Hs.
  pose proof (COS_bound ((e + s) / 2)) as Hc.
  assert (Hnum : - (e - s) <= 2 * cos ((e + s) / 2) * sin ((e - s) / 2)
                 <= e - s) by nra.
  split.
  - apply (Rmult_le_reg_r (e - s)); [lra |].
    unfold Rdiv. rewrite Rmult_assoc, Rinv_l by lra. lra.
  - apply (Rmult_le_reg_r (e - s)); [lra |].
    unfold Rdiv. rewrite Rmult_assoc, Rinv_l by lra. lra.
Qed.

Lemma solar_zenith_angle_average_range
  (maxx lonrad zcos a b zstart zend sha : R) :
  0 <= solar_zenith_angle_average maxx lonrad zcos
         (sin a * sin b) (cos a * cos b) zstart zend sha <= 1.
Proof.
  unfold solar_zenith_angle_average.
  destruct (Rle_dec zcos 1); [| lra].
  destruct (horizon _ _ _ _ _ _) as [hs he].
  set (clamped := if Rge_dec zcos (-1) then _ else _).
  destruct clamped as [[hs' he'] pmu0].
  destruct (Rgt_dec (he' - hs') 1.0e-8) as [Hw | Hw]; [| lra].
  unfold py_max. split; [eapply Rle_trans; [| apply Rmax_l]; lra |].
  apply Rmax_lub; [lra |].
  unfold Rdiv. rewrite Rmult_assoc.
  apply zenith_cosine_le_1_weighted.
  apply sine_chord_slope. lra.
Qed.

(** X10.  The period-averaged zenith cosine lies in [0, 1] for every
    latitude, longitude, date, hour, base and step. *)
Theorem cos_zenith_integrated_in_unit_interval
  (lat lon y m d h base step : R) :
  0 <= calculate_cos_solar_zenith_angle_integrated lat lon y m d h base step
    <= 1.
Proof.
  unfold calculate_cos_solar_zenith_angle_integrated.
  destruct (__declination_angle (day_of_year y m d) h) as [dec tc].
  cbv zeta.
  destruct (Reqb step 1), (Reqb step 3), (Reqb step 6);
    apply solar_zenith_angle_average_range.
Qed.

(** A window no wider than the threshold of line 280 averages to 0. *)
Lemma solar_zenith_angle_average_narrow
  (maxx lonrad zcos zsin zcc zstart zend sha : R) :
  zend - zstart <= 1.0e-8 ->
  solar_zenith_angle_average maxx lonrad zcos zsin zcc zstart zend sha = 0.
Proof.
  intros Hw. unfold solar_zenith_angle_average.
  destruct (Rle_dec zcos 1); [| reflexivity].
  destruct (horizon_shift (sha * PI / 180 + lonrad) 2 lonrad
              zstart zend maxx) as [c ->].
  set (hs := zstart + c). set (he := zend + c).
  assert (Hk : he - hs = zend - zstart) by (unfold hs, he; lra).
  clearbody hs he.
  destruct (Rge_dec zcos (-1)).
  - cbv zeta.
    destruct (Rgt_dec _ _) as [Hgt | Hgt]; [| lra].
    exfalso. revert Hgt.
    pose proof (acos_bound zcos) as [Hac _].
    unfold py_max, py_min, Rmax, Rmin.
    repeat destruct (Rle_dec _ _); lra.
  - destruct (Rgt_dec (he - hs) 1.0e-8); lra.
Qed.

(** X11.  When the accumulation window is no wider than 1e-8 rad, that
    is [2 * pi / 24 * step <= 1e-8], and in particular for a step of
    zero or less, the period-averaged zenith cosine is 0. *)
Theorem cos_zenith_integrated_narrow_window
  (lat lon y m d h base step : R) :
  (2 * PI) / 24 * step <= 1.0e-8 ->
  calculate_cos_solar_zenith_angle_integrated lat lon y m d h base step = 0.
Proof.
  intros Hstep.
  unfold calculate_cos_solar_zenith_angle_integrated.
  destruct (__declination_angle (day_of_year y m d) h) as [dec tc].
  cbv zeta.
  destruct (Reqb step 1), (Reqb step 3), (Reqb step 6);
    apply solar_zenith_angle_average_narrow; lra.
Qed.

Lemma cos_zenith_integrated_narrow_window_witness :
  calculate_cos_solar_zenith_angle_integrated 50 10 2020 6 21 12 0 0 = 0.
Proof.
  apply cos_zenith_integrated_narrow_window. lra.
Defined.

(** ** The object store after [calculate_mean_radiant_temperature] *)

Lemma store_load_id (hp : heap) (r : ref) (a : ndarray) :
  load hp r = Some a -> store hp r a = hp.
Proof.
  unfold load. revert r.
  induction hp as [| x hp IH]; intros [| r] H; cbn in H |- *;
    try discriminate.
  - injection H as ->. reflexivity.
  - f_equal. apply IH. exact H.
Qed.

(** What a call that returns leaves behind: the array behind [fdir]
    holds the filtered values, all else is untouched. *)
Lemma mrt_store_after (hp hp' : heap) (ssrd ssr fdir strd strr cossza : ref)
  (mrt : list (option R)) :
  calculate_mean_radiant_temperature hp ssrd ssr fdir strd strr cossza
  = Some (mrt, hp') ->
  exists v_fdir v_cossza : ndarray,
    load hp fdir = Some v_fdir
    /\ load hp cossza = Some v_cossza
    /\ length v_cossza = length v_fdir
    /\ hp' = store hp fdir
               (tabulate (length v_fdir)
                  (fun i => filtered_fdir (item v_fdir i) (item v_cossza i))).
Proof.
  unfold calculate_mean_radiant_temperature.
  destruct (load hp ssrd) as [v_ssrd |]; [| discriminate].
  destruct (load hp ssr) as [v_ssr |]; [| discriminate].
  destruct (load hp fdir) as [v_fdir |]; [| discriminate].
  destruct (load hp strd) as [v_strd |]; [| discriminate].
  destruct (load hp strr) as [v_strr |]; [| discriminate].
  destruct (load hp cossza) as [v_cossza |]; [| discriminate].
  cbv zeta.
  destruct (same_shape _ _) eqn:Hshape; [| discriminate].
  destruct (load (store hp fdir _) strd); [| discriminate].
  destruct (load (store hp fdir _) fdir); [| discriminate].
  intros E. injection E as _ <-.
  cbn [same_shape forallb] in Hshape.
  repeat (apply andb_prop in Hshape; destruct Hshape as [?H Hshape]).
  repeat match goal with
         | H : Nat.eqb _ _ = true |- _ => apply Nat.eqb_eq in H
         end.
  exists v_fdir, v_cossza. repeat split; congruence.
Qed.

(** X12.  A call that returns has changed one object at most: the array
    passed as [fdir] now holds [fdir / cossza] where [cossza > 0.01] and
    its old value elsewhere, and every other array of the store is as it
    was. *)
Theorem mrt_writes_only_fdir
  (hp hp' : heap) (ssrd ssr fdir strd strr cossza : ref)
  (mrt : list (option R)) (v_fdir v_cossza : ndarray) :
  calculate_mean_radiant_temperature hp ssrd ssr fdir strd strr cossza
  = Some (mrt, hp') ->
  load hp fdir = Some v_fdir -> load hp cossza = Some v_cossza ->
  load hp' fdir
  = Some (tabulate (length v_fdir)
            (fun i => filtered_fdir (item v_fdir i) (item v_cossza i)))
  /\ forall r : ref, r <> fdir -> load hp' r = load hp r.
Proof.
  intros Hcall Hf Hc.
  destruct (mrt_store_after _ _ _ _ _ _ _ _ _ Hcall)
    as [vf [vc [Hf' [Hc' [_ ->]]]]].
  assert (vf = v_fdir) by congruence. assert (vc = v_cossza) by congruence.
  subst vf vc. split.
  - apply load_store_same. apply nth_error_Some.
    unfold load in Hf. congruence.
  - intros r Hr. apply load_store_other. congruence.
Qed.

Lemma mrt_writes_only_fdir_witness :
  let hp := [[100]; [100]; repeat 0 1; [350]; [-50]; repeat 0 1] in
  load hp 2%nat
  = Some (tabulate 1 (fun i => filtered_fdir (item [0] i) (item [0] i)))
  /\ forall r : ref, r <> 2%nat -> load hp r = load hp r.
Proof.
  exact (mrt_writes_only_fdir _ _ 0%nat 1%nat 2%nat 3%nat 4%nat 5%nat _
           [0] [0]
           (mrt_dark_call [100] [350] [-50] 1 eq_refl eq_refl eq_refl)
           eq_refl eq_refl).
Defined.

(** X13.  Where the sun is low everywhere ([cossza <= 0.01] at every
    element) a call that returns leaves the whole object store
    unchanged. *)
Theorem mrt_night_is_pure
  (hp hp' : heap) (ssrd ssr fdir strd strr cossza : ref)
  (mrt : list (option R)) (v_cossza : ndarray) :
  calculate_mean_radiant_temperature hp ssrd ssr fdir strd strr cossza
  = Some (mrt, hp') ->
  load hp cossza = Some v_cossza ->
  (forall i : nat, item v_cossza i <= 0.01) ->
  hp' = hp.
Proof.
  intros Hcall Hc Hlow.
  destruct (mrt_store_after _ _ _ _ _ _ _ _ _ Hcall)
    as [vf [vc [Hf' [Hc' [_ ->]]]]].
  assert (vc = v_cossza) by congruence. subst vc.
  assert (HT : tabulate (length vf)
                 (fun i => filtered_fdir (item vf i) (item v_cossza i)) = vf).
  { transitivity (tabulate (length vf) (item vf)); [| apply tabulate_item].
    apply tabulate_ext. intros i _. apply filtered_fdir_dark, Hlow. }
  rewrite HT. apply store_load_id. exact Hf'.
Qed.

Lemma mrt_night_is_pure_witness :
  [[100]; [100]; repeat 0 1; [350]; [-50]; repeat 0 1]
  = [[100]; [100]; repeat 0 1; [350]; [-50]; repeat 0 1].
Proof.
  apply (mrt_night_is_pure _ _ 0%nat 1%nat 2%nat 3%nat 4%nat 5%nat _ [0]
           (mrt_dark_call [100] [350] [-50] 1 eq_refl eq_refl eq_refl)
           eq_refl).
  intros [| [| i]]; cbn; lra.
Defined.

(** ** Unit conversions and wind speed *)

(** X14.  The temperature conversions agree with each other: Celsius and
    Kelvin are inverse in both directions, and Fahrenheit to Kelvin
    followed by Kelvin to Celsius is [(f - 32) * 5 / 9]. *)
Theorem temperature_conversions_compose (x : R) :
  __celcius_to_kelvin (__kelvin_to_celcius x) = x
  /\ __kelvin_to_celcius (__celcius_to_kelvin x) = x
  /\ __kelvin_to_celcius (__farenheit_to_kelvin x) = (x - 32) * 5 / 9.
Proof.
  unfold __celcius_to_kelvin, __kelvin_to_celcius, __farenheit_to_kelvin.
  repeat split; lra.
Qed.

Lemma wind_speed_sqr (u v : R) :
  0 <= __calculate_wind_speed u v
  /\ __calculate_wind_speed u v * __calculate_wind_speed u v = u * u + v * v.
Proof.
  unfold __calculate_wind_speed. cbv zeta.
  assert (H : 0 <= u ^ 2 + v ^ 2) by (simpl; nra).
  split; [apply sqrt_pos |].
  rewrite sqrt_sqrt by exact H. simpl. ring.
Qed.

(** X15.  The wind speed is never negative, is at least the size of each
    component and at most the sum of their sizes, and is zero only for
    no wind at all. *)
Theorem wind_speed_bounds (u v : R) :
  0 <= __calculate_wind_speed u v
  /\ Rabs u <= __calculate_wind_speed u v
  /\ Rabs v <= __calculate_wind_speed u v
  /\ __calculate_wind_speed u v <= Rabs u + Rabs v
  /\ (__calculate_wind_speed u v = 0 <-> u = 0 /\ v = 0).
Proof.
  destruct (wind_speed_sqr u v) as [H0 Hsq].
  set (ws := __calculate_wind_speed u v) in *.
  split; [exact H0 |].
  split; [apply Rabs_le; nra |].
  split; [apply Rabs_le; nra |].
  split.
  - unfold Rabs. destruct (Rcase_abs u), (Rcase_abs v); nra.
  - split.
    + intros Hz. rewrite Hz in Hsq. split; nra.
    + intros [-> ->]. nra.
Qed.

(** ** Humidity *)

Lemma magnus_exponent_le (a b : R) :
  -237.7 < a -> -237.7 < b ->
  (7.5 * a / (237.7 + a) <= 7.5 * b / (237.7 + b) <-> a <= b).
Proof.
  intros Ha Hb.
  assert (Hdiff : 7.5 * b / (237.7 + b) - 7.5 * a / (237.7 + a)
                  = 7.5 * 237.7 * (b - a) / ((237.7 + a) * (237.7 + b))).
  { field. lra. }
  assert (Hden : 0 < (237.7 + a) * (237.7 + b)) by nra.
  assert (Hinv : 0 < / ((237.7 + a) * (237.7 + b)))
    by (apply Rinv_0_lt_compat; exact Hden).
  unfold Rdiv in Hdiff at 3.
  split; intros H.
  - assert (0 <= 7.5 * 237.7 * (b - a) * / ((237.7 + a) * (237.7 + b)))
      by lra.
    nra.
  - assert (0 <= 7.5 * 237.7 * (b - a) * / ((237.7 + a) * (237.7 + b)))
      by (apply Rmult_le_pos; [nra | lra]).
    lra.
Qed.

Lemma Rpower_10_le (x y : R) : Rpower 10.0 x <= Rpower 10.0 y <-> x <= y.
Proof.
  split; intros H.
  - destruct (Rle_dec x y) as [Hle | Hgt]; [exact Hle | exfalso].
    assert (Rpower 10.0 y < Rpower 10.0 x) by (apply Rpower_lt; lra).
    lra.
  - apply Rle_Rpower; lra.
Qed.

Lemma ratio_le_1 (a b : R) : 0 < b -> (a / b <= 1 <-> a <= b).
Proof.
  intros Hb. split; intros H.
  - apply (Rmult_le_reg_r (/ b)); [apply Rinv_0_lt_compat; exact Hb |].
    rewrite Rinv_r by lra. exact H.
  - apply (Rmult_le_reg_r b); [exact Hb |].
    unfold Rdiv. rewrite Rmult_assoc, Rinv_l by lra. lra.
Qed.

(** X16.  For temperatures above -237.7 the relative humidity in percent
    is positive, and it is at most 100 exactly when the dew point is at
    most the temperature (so it is 100 when the two are equal). *)
Theorem relative_humidity_percent_range (t2m td : R) :
  -237.7 < t2m -> -237.7 < td ->
  0 < calculate_relative_humidity_percent t2m td
  /\ (calculate_relative_humidity_percent t2m td <= 100 <-> td <= t2m).
Proof.
  intros Ht Hd. unfold calculate_relative_humidity_percent. cbv zeta.
  set (es := Rpower 10.0 (7.5 * t2m / (237.7 + t2m))).
  set (e := Rpower 10.0 (7.5 * td / (237.7 + td))).
  assert (Hes : 0 < es) by (unfold es, Rpower; apply exp_pos).
  assert (He : 0 < e) by (unfold e, Rpower; apply exp_pos).
  assert (Hq : 6.11 * e / (6.11 * es) = e / es) by (field; lra).
  rewrite Hq.
  assert (Hpos : 0 < e / es) by (apply Rdiv_lt_0_compat; assumption).
  split; [lra |].
  assert (Hiff : e <= es <-> td <= t2m).
  { unfold e, es. rewrite Rpower_10_le.
    apply magnus_exponent_le; assumption. }
  pose proof (ratio_le_1 e es Hes) as Hr.
  split; intros H.
  - apply Hiff, Hr. lra.
  - apply Hiff, Hr in H. lra.
Qed.

Lemma relative_humidity_percent_range_witness :
  0 < calculate_relative_humidity_percent 300 290
  /\ (calculate_relative_humidity_percent 300 290 <= 100 <-> 290 <= 300).
Proof.
  apply relative_humidity_percent_range; lra.
Defined.

(** The three regimes of [calculate_relative_humidity]. *)
Lemma relative_humidity_cases (t2m : R) :
  (t2m < 273.15 -> calculate_relative_humidity t2m = None)
  /\ (273.15 < t2m ->
      calculate_relative_humidity t2m
      = Some (exp (ess_of (t2m - 273.15)) * 0.01)).
Proof.
  unfold calculate_relative_humidity, __kelvin_to_celcius. cbv zeta.
  replace (t2m - 273.15 - 273.15 + 273.15) with (t2m - 273.15) by lra.
  unfold Rltb, Reqb. split; intros H.
  - destruct (Rlt_dec 0 (t2m - 273.15)); [lra |].
    destruct (Req_dec_T (t2m - 273.15) 0); [lra | reflexivity].
  - destruct (Rlt_dec 0 (t2m - 273.15)); [reflexivity | lra].
Qed.

(** X17.  [calculate_relative_humidity] takes its argument in kelvin but
    feeds [t2m - 273.15] to the logarithm: below 273.15 K the argument is
    negative and the result is NaN; above it the result is a number that
    is never negative. *)
Theorem relative_humidity_nan_below_freezing (t2m : R) :
  (t2m < 273.15 -> calculate_relative_humidity t2m = None)
  /\ (273.15 < t2m ->
      exists rh : R,
        calculate_relative_humidity t2m = Some rh /\ 0 <= rh).
Proof.
  destruct (relative_humidity_cases t2m) as [Hcold Hwarm].
  split; [exact Hcold |].
  intros H. eexists. split; [apply Hwarm, H |].
  pose proof (exp_pos (ess_of (t2m - 273.15))). lra.
Qed.

Lemma relative_humidity_nan_below_freezing_witness :
  calculate_relative_humidity 260 = None
  /\ exists rh : R,
       calculate_relative_humidity 300 = Some rh /\ 0 <= rh.
Proof.
  split.
  - apply (proj1 (relative_humidity_nan_below_freezing 260)). lra.
  - apply (proj2 (relative_humidity_nan_below_freezing 300)). lra.
Defined.

(** X18.  The simple wet bulb globe temperature inherits this: it is NaN
    for every temperature below 273.15 K, and above it the result is a
    number not below [0.567 * (t2m - 273.15) + 3.38]. *)
Theorem wbgts_nan_below_freezing (t2m : R) :
  (t2m < 273.15 -> calculate_wbgts t2m = None)
  /\ (273.15 < t2m ->
      exists w : R,
        calculate_wbgts t2m = Some w
        /\ 0.567 * (t2m - 273.15) + 3.38 <= w).
Proof.
  destruct (relative_humidity_cases t2m) as [Hcold Hwarm].
  unfold calculate_wbgts. split; intros H.
  - rewrite (Hcold H). reflexivity.
  - rewrite (Hwarm H). cbv zeta. eexists. split; [reflexivity |].
    unfold __pa_to_hpa, __kelvin_to_celcius.
    pose proof (exp_pos (ess_of (t2m - 273.15))). lra.
Qed.

Lemma wbgts_nan_below_freezing_witness :
  calculate_wbgts 260 = None
  /\ exists w : R,
       calculate_wbgts 300 = Some w /\ 0.567 * (300 - 273.15) + 3.38 <= w.
Proof.
  split.
  - apply (proj1 (wbgts_nan_below_freezing 260)). lra.
  - apply (proj2 (wbgts_nan_below_freezing 300)). lra.
Defined.

(** ** Mean radiant temperature from the globe temperature *)

Lemma np_power_pos (x y : R) : 0 < x -> np_power x y = Some (Rpower x y).
Proof.
  intros H. unfold np_power, Rltb. destruct (Rlt_dec 0 x); [reflexivity | lra].
Qed.

Lemma np_power_zero (y : R) : np_power 0 y = Some 0.
Proof.
  unfold np_power, Rltb, Reqb.
  destruct (Rlt_dec 0 0); [lra |].
  destruct (Req_dec_T 0 0); [reflexivity | lra].
Qed.

Lemma np_power_neg (x y : R) : x < 0 -> np_power x y = None.
Proof.
  intros H. unfold np_power, Rltb, Reqb.
  destruct (Rlt_dec 0 x); [lra |].
  destruct (Req_dec_T x 0); [lra | reflexivity].
Qed.

(** A power of a non-negative wind speed is a non-negative number,
    positive for a positive speed. *)
Lemma np_power_wind (va y : R) :
  0 <= va ->
  exists p : R, np_power va y = Some p /\ 0 <= p /\ (0 < va -> 0 < p).
Proof.
  intros [Hpos | <-].
  - exists (Rpower va y). rewrite np_power_pos by exact Hpos.
    pose proof (exp_pos (y * ln va)). unfold Rpower.
    repeat split; [lra | intros _; assumption].
  - exists 0. rewrite np_power_zero. repeat split; [lra | intros H; lra].
Qed.

Lemma fourth_root_of_fourth_power (w : R) :
  0 < w -> Rpower (w ^ 4) 0.25 = w.
Proof.
  intros Hw. rewrite <- (Rpower_pow 4 w Hw), Rpower_mult.
  replace (INR 4 * 0.25) with 1 by (simpl; lra).
  apply Rpower_1, Hw.
Qed.

Lemma int64_wrap_id (z : Z) :
  (- 2 ^ 63 <= z < 2 ^ 63)%Z -> int64_wrap z = z.
Proof.
  intros Hz. unfold int64_wrap. rewrite Z.mod_small by lia. lia.
Qed.

(** In range, the fourth power the code computes is the fourth power of
    the value. *)
Lemma num_pow4_in_range (wbgt : pynum) :
  pow4_in_range wbgt ->
  0 < num_value wbgt /\ num_pow4 wbgt = num_value wbgt ^ 4.
Proof.
  destruct wbgt as [z | x]; cbn [pow4_in_range num_value num_pow4].
  - intros [Hlo Hhi]. split; [apply IZR_lt; lia |].
    assert (Hpow : (0 <= z ^ 4 <= 55108 ^ 4)%Z).
    { split; [apply Z.pow_nonneg; lia |].
      apply Z.pow_le_mono_l. lia. }
    rewrite int64_wrap_id by lia.
    rewrite pow_IZR. reflexivity.
  - intros Hx. split; [exact Hx | reflexivity].
Qed.

(** In range, the difference the code computes is the difference of the
    values. *)
Lemma num_sub_in_range (wbgt t2m : pynum) :
  pow4_in_range wbgt -> 0 <= num_value t2m <= num_value wbgt ->
  num_sub wbgt t2m = num_value wbgt - num_value t2m.
Proof.
  destruct wbgt as [zw | xw], t2m as [zt | xt];
    cbn [pow4_in_range num_value num_sub]; try reflexivity.
  intros [Hlo Hhi] [Ht0 Htw].
  apply le_IZR in Ht0, Htw.
  rewrite int64_wrap_id by lia. apply minus_IZR.
Qed.

(** From 55109 on, the int64 fourth power has wrapped to a negative
    number and the result is NaN. *)
Lemma mrt_from_wbgt_int64_wraps :
  int64_wrap (55109 ^ 4) = (-9223363648512013455)%Z
  /\ calculate_mrt_from_wbgt (PyInt 55109) (PyInt 55109) (PyInt 2) = None.
Proof.
  assert (Hw : int64_wrap (55109 ^ 4) = (-9223363648512013455)%Z)
    by (vm_compute; reflexivity).
  split; [exact Hw |].
  unfold calculate_mrt_from_wbgt. cbn [num_value num_pow4 num_sub].
  rewrite (np_power_pos 2) by lra. cbv zeta.
  rewrite Hw.
  replace (int64_wrap (55109 - 55109)) with 0%Z by (vm_compute; reflexivity).
  apply np_power_neg. lra.
Qed.

(** X19.  For a wind speed that is not negative and a globe temperature
    whose fourth power does not wrap (a positive float, or a positive int
    up to 55108): when air and globe temperature are the same number the
    mean radiant temperature is that temperature, and with wind, a globe
    warmer than the air (itself not negative) gives a mean radiant
    temperature above the globe temperature.  Over exact reals. *)
Theorem mrt_from_wbgt_equilibrium (t2m wbgt va : pynum) :
  0 <= num_value va -> pow4_in_range wbgt ->
  calculate_mrt_from_wbgt wbgt wbgt va = Some (num_value wbgt)
  /\ (0 < num_value va -> 0 <= num_value t2m < num_value wbgt ->
      exists mrt : R,
        calculate_mrt_from_wbgt t2m wbgt va = Some mrt
        /\ num_value wbgt < mrt).
Proof.
  intros Hva Hrange.
  destruct (num_pow4_in_range wbgt Hrange) as [Hw Hp4].
  destruct (np_power_wind (num_value va) 0.6 Hva) as [p [Hp [Hp0 Hppos]]].
  unfold calculate_mrt_from_wbgt. rewrite Hp. cbv zeta. rewrite Hp4.
  assert (Hk : 0 < 0.98 * Rpower 0.15 0.4).
  { pose proof (exp_pos (0.4 * ln 0.15)). unfold Rpower. lra. }
  assert (Hw4 : 0 < num_value wbgt ^ 4) by (apply pow_lt; exact Hw).
  split.
  - rewrite (num_sub_in_range wbgt wbgt Hrange) by lra.
    replace (num_value wbgt ^ 4
             + 1.1e8 * p / (0.98 * Rpower 0.15 0.4)
               * (num_value wbgt - num_value wbgt))
      with (num_value wbgt ^ 4) by (field; lra).
    rewrite np_power_pos by exact Hw4.
    f_equal. apply fourth_root_of_fourth_power, Hw.
  - intros Hvapos Hlt. specialize (Hppos Hvapos).
    rewrite (num_sub_in_range wbgt t2m Hrange) by lra.
    assert (Hf : 0 < 1.1e8 * p / (0.98 * Rpower 0.15 0.4)).
    { apply Rdiv_lt_0_compat; lra. }
    assert (Hgrow : num_value wbgt ^ 4
                    < num_value wbgt ^ 4
                      + 1.1e8 * p / (0.98 * Rpower 0.15 0.4)
                        * (num_value wbgt - num_value t2m))
      by nra.
    eexists. split; [apply np_power_pos; lra |].
    rewrite <- (fourth_root_of_fourth_power (num_value wbgt) Hw) at 1.
    apply Rlt_Rpower_l; lra.
Qed.

Lemma mrt_from_wbgt_equilibrium_witness :
  calculate_mrt_from_wbgt (PyInt 300) (PyInt 300) (PyInt 2) = Some 300
  /\ exists mrt : R,
       calculate_mrt_from_wbgt (PyFloat 295.5) (PyInt 300) (PyInt 2)
       = Some mrt
       /\ 300 < mrt.
Proof.
  assert (H1 : 0 <= num_value (PyInt 2)) by (cbn; lra).
  assert (H2 : pow4_in_range (PyInt 300)) by (cbn; lia).
  destruct (mrt_from_wbgt_equilibrium (PyFloat 295.5) (PyInt 300) (PyInt 2)
              H1 H2) as [Heq Hwarm].
  split; [exact Heq | apply Hwarm; cbn; lra].
Defined.

(** ** Humidex *)

(** X20.  For positive (kelvin) temperature and dew point, humidex is
    more than [t2m - 273.15 - 5.555], it equals
    [t2m - 273.15 - 2.160895] when the dew point equals the temperature,
    and it grows strictly with the dew point. *)
Theorem humidex_bounds (t2m td td' : R) :
  0 < t2m -> 0 < td -> td < td' ->
  t2m - 273.15 - 5.555 < calculate_humidex t2m td
  /\ calculate_humidex t2m t2m = t2m - 273.15 - 2.160895
  /\ calculate_humidex t2m td < calculate_humidex t2m td'.
Proof.
  intros Ht Hd Hlt. unfold calculate_humidex. cbv zeta.
  repeat split.
  - pose proof (exp_pos (5417.7530 * (1 / t2m - 1 / td))). lra.
  - replace (1 / t2m - 1 / t2m) with 0 by lra.
    rewrite Rmult_0_r, exp_0. lra.
  - assert (Hinv : / td' < / td) by (apply Rinv_lt_contravar; nra).
    assert (Hexp : exp (5417.7530 * (1 / t2m - 1 / td))
                   < exp (5417.7530 * (1 / t2m - 1 / td'))).
    { apply exp_increasing. lra. }
    lra.
Qed.

Lemma humidex_bounds_witness :
  300 - 273.15 - 5.555 < calculate_humidex 300 290
  /\ calculate_humidex 300 300 = 300 - 273.15 - 2.160895
  /\ calculate_humidex 300 290 < calculate_humidex 300 295.
Proof.
  apply humidex_bounds; lra.
Defined.

(** ** Wind chill *)

Lemma np_log10_672_pos : 0 < np_log10 (67.8 * 10 - 5.42).
Proof.
  unfold np_log10.
  assert (H1 : 0 < ln (67.8 * 10 - 5.42)).
  { rewrite <- ln_1. apply ln_increasing; lra. }
  assert (H2 : 0 < ln 10).
  { rewrite <- ln_1. apply ln_increasing; lra. }
  apply Rdiv_lt_0_compat; assumption.
Qed.

(** The wind speed in miles per hour at 2 m (lines 732-733) is a
    positive multiple of the wind speed given. *)
Lemma wind_chill_speed (va : R) :
  va * 4.87 / np_log10 (67.8 * 10 - 5.42) * 2.23694
  = va * (4.87 * 2.23694 / np_log10 (67.8 * 10 - 5.42))
  /\ 0 < 4.87 * 2.23694 / np_log10 (67.8 * 10 - 5.42).
Proof.
  pose proof np_log10_672_pos as Hl. split.
  - field. lra.
  - apply Rdiv_lt_0_compat; lra.
Qed.

(** X21.  Wind chill is NaN for a negative wind speed; for wind speeds
    that are not negative it is a number, it falls strictly as the wind
    rises, and a change of the temperature by [dt] changes it by
    [1.6215 * dt] whatever the wind. *)
Theorem wind_chill_in_wind (t2m dt va va' : R) :
  (va < 0 -> calculate_wind_chill t2m va = None)
  /\ (0 <= va -> va < va' ->
      exists w w' w_dt : R,
        calculate_wind_chill t2m va = Some w
        /\ calculate_wind_chill t2m va' = Some w'
        /\ w' < w
        /\ calculate_wind_chill (t2m + dt) va = Some w_dt
        /\ w_dt = w + 1.6215 * dt).
Proof.
  unfold calculate_wind_chill. cbv zeta.
  destruct (wind_chill_speed va) as [-> Hk].
  destruct (wind_chill_speed va') as [-> _].
  set (k := 4.87 * 2.23694 / np_log10 (67.8 * 10 - 5.42)) in *.
  split.
  - intros Hneg. rewrite np_power_neg by nra. reflexivity.
  - intros Hva Hlt.
    assert (Hva' : 0 < va' * k) by nra.
    rewrite (np_power_pos (va' * k)) by exact Hva'.
    destruct Hva as [Hpos | <-].
    + assert (Hvak : 0 < va * k) by nra.
      rewrite (np_power_pos (va * k)) by exact Hvak.
      assert (Hp : Rpower (va * k) 0.16 < Rpower (va' * k) 0.16).
      { apply Rlt_Rpower_l; [lra | split; nra]. }
      do 3 eexists. repeat split; try reflexivity.
      * lra.
      * unfold __kelvin_to_celcius. lra.
    + rewrite Rmult_0_l, np_power_zero.
      assert (Hp : 0 < Rpower (va' * k) 0.16) by (unfold Rpower; apply exp_pos).
      do 3 eexists. repeat split; try reflexivity.
      * lra.
      * unfold __kelvin_to_celcius. lra.
Qed.

Lemma wind_chill_in_wind_witness :
  calculate_wind_chill 270 (-1) = None
  /\ exists w w' w_dt : R,
       calculate_wind_chill 270 3 = Some w
       /\ calculate_wind_chill 270 5 = Some w'
       /\ w' < w
       /\ calculate_wind_chill (270 + 2) 3 = Some w_dt
       /\ w_dt = w + 1.6215 * 2.
Proof.
  split.
  - apply (proj1 (wind_chill_in_wind 270 2 (-1) 5)). lra.
  - apply (proj2 (wind_chill_in_wind 270 2 3 5)); lra.
Defined.

(** ** The Simpson sum of [calc_cossza] *)

Lemma csza_range (lat lon y m d h : R) :
  0 <= calculate_cos_solar_zenith_angle lat lon y m d h <= 1.
Proof.
  unfold calculate_cos_solar_zenith_angle.
  destruct (__declination_angle (day_of_year y m d) h) as [dec tc].
  cbv zeta. unfold np_clip_min. split; [apply Rmax_r |].
  apply Rmax_lub; [| lra].
  apply zenith_cosine_le_1_weighted, COS_bound.
Qed.

(** X22.  The Simpson weights of [calc_cossza] are 2, 8, 2 whatever the
    hour, and the sum it accumulates at a grid point lies between 0 and
    12, the length of the window in hours. *)
Theorem simpson_sum_range (lat lon y m d hour : R) :
  simpson_weights hour = [2; 8; 2]
  /\ 0 <= calc_cossza_integral lat lon y m d hour <= 12.
Proof.
  assert (Hw : simpson_weights hour = [2; 8; 2]).
  { unfold simpson_weights. cbn [map]. repeat f_equal; lra. }
  split; [exact Hw |].
  unfold calc_cossza_integral. cbv zeta. rewrite Hw.
  cbn [length seq fold_left nth simpson_times].
  pose proof (csza_range lat lon y m d (hour - 6)).
  pose proof (csza_range lat lon y m d hour).
  pose proof (csza_range lat lon y m d (hour + 6)).
  lra.
Qed.

(** ** NaN in the mean radiant temperature *)

Lemma nth_error_tabulate {A : Type} (n : nat) (f : nat -> A) (i : nat) :
  (i < n)%nat -> nth_error (tabulate n f) i = Some (f i).
Proof.
  intros Hi. unfold tabulate.
  rewrite nth_error_map, nth_error_seq.
  apply Nat.ltb_lt in Hi. rewrite Hi. reflexivity.
Qed.

Lemma fp_of_outside (c : R) : c < -1 \/ 1 < c -> fp_of c = None.
Proof.
  intros H. unfold fp_of, np_arcsin, Rleb.
  destruct (Rle_dec (-1) c), (Rle_dec c 1); cbn [andb]; try reflexivity.
  lra.
Qed.

(** X23.  The result has the shape of the inputs, and wherever [cossza]
    lies outside [-1, 1] the arcsine is NaN and so is the returned
    element: nothing clamps it. *)
Theorem mrt_nan_outside_unit_cosine
  (hp hp' : heap) (ssrd ssr fdir strd strr cossza : ref)
  (mrt : list (option R)) (v_cossza : ndarray) (i : nat) :
  calculate_mean_radiant_temperature hp ssrd ssr fdir strd strr cossza
  = Some (mrt, hp') ->
  load hp cossza = Some v_cossza ->
  (i < length v_cossza)%nat ->
  item v_cossza i < -1 \/ 1 < item v_cossza i ->
  length mrt = length v_cossza /\ nth_error mrt i = Some None.
Proof.
  unfold calculate_mean_radiant_temperature.
  destruct (load hp ssrd) as [v_ssrd |]; [| discriminate].
  destruct (load hp ssr) as [v_ssr |]; [| discriminate].
  destruct (load hp fdir) as [v_fdir |]; [| discriminate].
  destruct (load hp strd) as [v_strd |]; [| discriminate].
  destruct (load hp strr) as [v_strr |]; [| discriminate].
  destruct (load hp cossza) as [v_c |]; [| discriminate].
  cbv zeta.
  destruct (same_shape _ _) eqn:Hshape; [| discriminate].
  destruct (load (store hp fdir _) strd); [| discriminate].
  destruct (load (store hp fdir _) fdir); [| discriminate].
  intros E Hc Hi Hout. injection E as <- _. injection Hc as ->.
  cbn [same_shape forallb] in Hshape.
  repeat (apply andb_prop in Hshape; destruct Hshape as [?H Hshape]).
  repeat match goal with
         | H : Nat.eqb _ _ = true |- _ => apply Nat.eqb_eq in H
         end.
  assert (Hn : length v_cossza = length v_ssrd) by congruence.
  rewrite Hn in Hi. split.
  - unfold tabulate. rewrite !length_map, length_seq. congruence.
  - rewrite nth_error_map, nth_error_tabulate by exact Hi.
    rewrite nth_tabulate by exact Hi.
    rewrite (fp_of_outside _ Hout). reflexivity.
Qed.

Lemma mrt_nan_outside_unit_cosine_witness :
  length [@None R] = length [2] /\ nth_error [@None R] 0 = Some None.
Proof.
  assert (Hcall :
    calculate_mean_radiant_temperature
      [[1000]; [800]; [600]; [350]; [-50]; [2]]
      0%nat 1%nat 2%nat 3%nat 4%nat 5%nat
    = Some ([None],
            [[1000]; [800]; [filtered_fdir 600 2]; [350]; [-50]; [2]])).
  { unfold calculate_mean_radiant_temperature.
    cbn [load nth_error same_shape forallb length Nat.eqb andb].
    cbn [tabulate seq map store item nth load nth_error].
    rewrite fp_of_outside by lra. reflexivity. }
  apply (mrt_nan_outside_unit_cosine _ _ _ _ _ _ _ _ _ [2] 0%nat Hcall).
  - reflexivity.
  - cbn. lia.
  - right. cbn. lra.
Defined.
